(** * Identity store of blnk: a shallow embedding of [database/identity.go]

    The five entry points of the file ([CreateIdentity], [GetIdentityByID],
    [GetAllIdentities], [UpdateIdentity], [DeleteIdentity]) are embedded as
    functions that thread the state of the data source explicitly.  The
    data source state is the content of the table [blnk.identity] together
    with the list of calls made on the connection so far.  What the
    environment decides in a call (the clock, the random part of a fresh
    identifier, which driver calls fail) is passed to it as an [Env]. *)

From Stdlib Require Import Ascii.
From stdpp Require Import base strings list gmap fin_maps sorting pretty.

#[local] Set Warnings "-register-all,-deprecated-syntactic-definition".
#[local] Open Scope Z_scope.

(** ** Go values *)

(** [time.Time], as the number of nanoseconds since the zero instant
    (January 1, year 1, 00:00 UTC); [IsZero] holds of that instant only. *)
Definition Time : Type := Z.

Definition IsZero (t : Time) : bool := bool_decide (t = 0).

(** [[]byte], the serialized form of the metadata. *)
Definition bytes : Type := string.

(** The dynamic values an [interface{}] of the metadata mapping can hold.
    [AFunc] stands for the Go values [encoding/json] refuses to serialize
    (functions, channels). *)
Inductive Any : Type :=
| ANil
| ABool (b : bool)
| ANumber (z : Z)
| AString (s : string)
| ASlice (l : list Any)
| AMap (m : gmap string Any)
| AFunc.

(** [map[string]interface{}]: [None] is the nil map, [Some ∅] the empty
    map that is not nil. *)
Abbreviation MetaDataMap := (option (gmap string Any)).

(** The interface of [encoding/json] as the store uses it: [Marshal] of a
    metadata mapping gives its bytes or fails; [Unmarshal] of bytes into
    the (nil) metadata field of a fresh identity gives the mapping or
    fails. *)
Class JSONCodec : Type := {
  Marshal : MetaDataMap → option bytes;
  Unmarshal : bytes → option MetaDataMap;
}.

(** The values the program hands to the driver as statement arguments and
    gets back from it as column values: [VNil] is the nil interface and
    the SQL [NULL]. *)
Inductive Value : Type :=
| VNil
| VString (s : string)
| VTime (t : Time)
| VBytes (b : bytes).

#[global] Instance Value_eq_dec : EqDecision Value.
Proof. solve_decision. Defined.

#[global] Instance Value_inhabited : Inhabited Value := populate VNil.

(** ** The entity *)

(** Modelled from the spec: the declaration of [model.Identity] is not part
    of the file; its fields are the ones the file reads and writes, typed
    as the data model of the specification says (strings, two timestamps,
    an open mapping). *)
Record Identity : Type := mkIdentity {
  IdentityID : string;
  IdentityType : string;
  FirstName : string;
  LastName : string;
  OtherNames : string;
  Gender : string;
  DOB : Time;
  EmailAddress : string;
  PhoneNumber : string;
  Nationality : string;
  OrganizationName : string;
  Category : string;
  Street : string;
  Country : string;
  State : string;
  PostCode : string;
  City : string;
  CreatedAt : Time;
  MetaData : MetaDataMap;
}.

(** [&model.Identity{}] *)
Definition zeroIdentity : Identity :=
  mkIdentity "" "" "" "" "" "" 0 "" "" "" "" "" "" "" "" "" "" 0 None.

Definition set_IdentityID (v : string) (i : Identity) : Identity :=
  mkIdentity v (IdentityType i) (FirstName i) (LastName i) (OtherNames i)
    (Gender i) (DOB i) (EmailAddress i) (PhoneNumber i) (Nationality i)
    (OrganizationName i) (Category i) (Street i) (Country i) (State i)
    (PostCode i) (City i) (CreatedAt i) (MetaData i).

Definition set_CreatedAt (v : Time) (i : Identity) : Identity :=
  mkIdentity (IdentityID i) (IdentityType i) (FirstName i) (LastName i)
    (OtherNames i) (Gender i) (DOB i) (EmailAddress i) (PhoneNumber i)
    (Nationality i) (OrganizationName i) (Category i) (Street i) (Country i)
    (State i) (PostCode i) (City i) v (MetaData i).

Definition set_MetaData (v : MetaDataMap) (i : Identity) : Identity :=
  mkIdentity (IdentityID i) (IdentityType i) (FirstName i) (LastName i)
    (OtherNames i) (Gender i) (DOB i) (EmailAddress i) (PhoneNumber i)
    (Nationality i) (OrganizationName i) (Category i) (Street i) (Country i)
    (State i) (PostCode i) (City i) (CreatedAt i) v.

(** ** Errors *)

(** The raw failures the driver and the codec report. *)
Inductive RawError : Type :=
| ErrNoRows          (* sql.ErrNoRows *)
| ErrDriver          (* a failed driver call, a violated constraint *)
| ErrScan            (* a column value that does not fit its destination *)
| ErrJSON.           (* encoding/json *)

Inductive ErrorCode : Type :=
| ErrBadRequest
| ErrNotFound
| ErrInternalServer.

#[global] Instance ErrorCode_eq_dec : EqDecision ErrorCode.
Proof. solve_decision. Defined.

(** Modelled from the spec: [apierror.NewAPIError] is not part of the file;
    it wraps a raw failure and a message into one of the three categories. *)
Record APIError : Type := NewAPIError {
  Code : ErrorCode;
  Message : string;
  Cause : option RawError;
}.

(** ** The table [blnk.identity] and the statements run on it *)

(** A row maps column names to values; a column that is absent is [NULL]. *)
Abbreviation Row := (gmap string Value).

Definition col (r : Row) (c : string) : Value := default VNil (r !! c).

(** The column list of the [INSERT] and of both [SELECT]s. *)
Definition IdentityColumns : list string :=
  [ "identity_id"; "identity_type"; "first_name"; "last_name"; "other_names";
    "gender"; "dob"; "email_address"; "phone_number"; "nationality";
    "organization_name"; "category"; "street"; "country"; "state";
    "post_code"; "city"; "created_at"; "meta_data" ].

(** One entry of the [SET] clause, [fmt.Sprintf("%s = $%d", fieldName,
    argPosition)], kept with its two components. *)
Record SetField : Type := mkSetField {
  fieldName : string;
  placeholder : nat;
}.

#[global] Instance SetField_eq_dec : EqDecision SetField.
Proof. solve_decision. Defined.

(** The three statements the file passes to [Conn.Exec]. *)
Inductive Statement : Type :=
| InsertIdentity (columns : list string)
    (* INSERT INTO blnk.identity (columns) VALUES ($1, ..., $n) *)
| UpdateIdentitySet (assignments : list SetField) (wherePosition : nat)
    (* UPDATE blnk.identity SET assignments WHERE identity_id = $wherePosition *)
| DeleteIdentityByID.
    (* DELETE FROM blnk.identity WHERE identity_id = $1 *)

(** The text of an entry of the [SET] clause and of the [UPDATE] query, as
    [fmt.Sprintf] and [strings.Join] build them. *)
Definition SetField_text (f : SetField) : string :=
  fieldName f +:+ " = $" +:+ pretty (placeholder f).

Fixpoint Join (elems : list string) (sep : string) : string :=
  match elems with
  | [] => ""
  | [e] => e
  | e :: rest => e +:+ sep +:+ Join rest sep
  end.

Definition NL : string := String (Ascii.ascii_of_nat 10) "".
Definition TAB : string := String (Ascii.ascii_of_nat 9) "".

Definition UpdateQuery_text (assignments : list SetField) (wherePosition : nat) : string :=
  NL +:+ TAB +:+ TAB +:+ "UPDATE blnk.identity" +:+
  NL +:+ TAB +:+ TAB +:+ "SET " +:+ Join (SetField_text <$> assignments) ", " +:+
  NL +:+ TAB +:+ TAB +:+ "WHERE identity_id = $" +:+ pretty wherePosition +:+
  NL +:+ TAB.

(** The argument bound to placeholder [$n]. *)
Definition placeholder_arg (args : list Value) (n : nat) : option Value :=
  match n with
  | O => None
  | S k => args !! k
  end.

(** SQL equality: a comparison with [NULL] is never true. *)
Definition sql_eq (a b : Value) : bool :=
  match a, b with
  | VNil, _ | _, VNil => false
  | _, _ => bool_decide (a = b)
  end.

(** [WHERE identity_id = id] *)
Definition matches_id (id : Value) (r : Row) : bool :=
  sql_eq (col r "identity_id") id.

Definition assign (r : Row) (cv : string * Value) : Row := <[cv.1 := cv.2]> r.

Definition bind_assignments (args : list Value) (assignments : list SetField)
  : option (list (string * Value)) :=
  mapM (λ f, v ← placeholder_arg args (placeholder f); Some (fieldName f, v))
       assignments.

(** Modelled from the spec: the schema of [blnk.identity] is not part of
    the file; [identity_id] is its primary key, so an [INSERT] whose
    identifier is [NULL] or already present fails.  A statement gives the
    new content of the table and the number of rows affected. *)
Definition run_statement (s : Statement) (args : list Value) (t : list Row)
  : option (list Row * nat) :=
  match s with
  | InsertIdentity columns =>
      if bool_decide (length columns = length args) then
        let r : Row := list_to_map (zip columns args) in
        if bool_decide (col r "identity_id" = VNil) then None
        else if existsb (matches_id (col r "identity_id")) t then None
        else Some (t ++ [r], 1%nat)
      else None
  | UpdateIdentitySet assignments wherePosition =>
      id ← placeholder_arg args wherePosition;
      assigns ← bind_assignments args assignments;
      Some ((λ r, if matches_id id r then foldl assign r assigns else r) <$> t,
            length (filter (λ r, matches_id id r = true) t))
  | DeleteIdentityByID =>
      id ← placeholder_arg args 1;
      Some (filter (λ r, matches_id id r = false) t,
            length (filter (λ r, matches_id id r = true) t))
  end.

(** [SELECT IdentityColumns FROM blnk.identity WHERE identity_id = $1], of
    which [QueryRow] keeps the first row. *)
Definition project (columns : list string) (r : Row) : list Value :=
  col r <$> columns.

Definition select_by_id (id : Value) (t : list Row) : option (list Value) :=
  project IdentityColumns <$> head (filter (λ r, matches_id id r = true) t).

(** [ORDER BY created_at DESC]: rows are compared on their timestamp, and
    a row without one sorts above every other, so comes first. *)
Definition timestamp_key (v : Value) : option Z :=
  match v with
  | VTime t => Some t
  | _ => None
  end.

Definition key_le (a b : option Z) : Prop :=
  match a, b with
  | _, None => True
  | None, Some _ => False
  | Some x, Some y => x ≤ y
  end.

Definition created_at_desc (r1 r2 : Row) : Prop :=
  key_le (timestamp_key (col r2 "created_at")) (timestamp_key (col r1 "created_at")).

#[global] Instance key_le_dec a b : Decision (key_le a b).
Proof. destruct a, b; simpl; apply _. Defined.

#[global] Instance created_at_desc_dec : RelDecision created_at_desc.
Proof. intros r1 r2. unfold created_at_desc. apply _. Defined.

Definition select_all_ordered (t : list Row) : list (list Value) :=
  project IdentityColumns <$> merge_sort created_at_desc t.

(** ** Scanning a row into an identity *)

(** The conversions of [Scan] into a [*string], a [*time.Time] and a
    [*[]byte].  [NULL] converts to the nil slice only; a value of another
    type than the column's is reported as an error. *)
Definition scan_string (v : Value) : option string :=
  match v with
  | VString s => Some s
  | VBytes b => Some b
  | _ => None
  end.

Definition scan_time (v : Value) : option Time :=
  match v with
  | VTime t => Some t
  | _ => None
  end.

Definition scan_bytes (v : Value) : option bytes :=
  match v with
  | VBytes b => Some b
  | VString s => Some s
  | VNil => Some ""
  | VTime _ => None
  end.

(** [Scan(&identity.IdentityID, ..., &identity.CreatedAt, &metaDataJSON)]
    on the nineteen values of a selected row. *)
Definition Scan (src : list Value) : option (Identity * bytes) :=
  match src with
  | [c1; c2; c3; c4; c5; c6; c7; c8; c9; c10; c11; c12; c13; c14; c15; c16;
     c17; c18; c19] =>
      identityID ← scan_string c1;
      identityType ← scan_string c2;
      firstName ← scan_string c3;
      lastName ← scan_string c4;
      otherNames ← scan_string c5;
      gender ← scan_string c6;
      dob ← scan_time c7;
      emailAddress ← scan_string c8;
      phoneNumber ← scan_string c9;
      nationality ← scan_string c10;
      organizationName ← scan_string c11;
      category ← scan_string c12;
      street ← scan_string c13;
      country ← scan_string c14;
      state ← scan_string c15;
      postCode ← scan_string c16;
      city ← scan_string c17;
      createdAt ← scan_time c18;
      metaDataJSON ← scan_bytes c19;
      Some (mkIdentity identityID identityType firstName lastName otherNames
              gender dob emailAddress phoneNumber nationality organizationName
              category street country state postCode city createdAt None,
            metaDataJSON)
  | _ => None
  end.

(** ** The data source and its environment *)

(** The calls made on the connection and on the transaction. *)
Inductive Call : Type :=
| CallExec (query : Statement) (args : list Value)
| CallQuery
| CallBeginTx
| CallQueryRow (id : string)
| CallRollback
| CallCommit.

Record Datasource : Type := mkDatasource {
  table : list Row;
  calls : list Call;
}.

(** What the environment decides during one call of an entry point. *)
Record Env : Type := mkEnv {
  Now : Time;                  (* the reading of time.Now() *)
  NewUUID : string;            (* the random token of a fresh identifier *)
  ExecFails : bool;            (* Conn.Exec returns an error *)
  RowsAffectedFails : bool;    (* result.RowsAffected returns an error *)
  BeginTxFails : bool;         (* Conn.BeginTx returns an error *)
  QueryFails : bool;           (* the query itself fails (Query, QueryRow) *)
  CommitFails : bool;          (* tx.Commit returns an error *)
  RowsErrFails : bool;         (* rows.Err reports an iteration error *)
}.

Definition record_call (c : Call) (d : Datasource) : Datasource :=
  mkDatasource (table d) (calls d ++ [c]).

(** [d.Conn.Exec(query, args...)] *)
Definition Exec (env : Env) (query : Statement) (args : list Value)
    (d : Datasource) : (RawError + nat) * Datasource :=
  let d := record_call (CallExec query args) d in
  if ExecFails env then (inl ErrDriver, d)
  else match run_statement query args (table d) with
       | None => (inl ErrDriver, d)
       | Some (t, n) => (inr n, mkDatasource t (calls d))
       end.

(** [result.RowsAffected()] *)
Definition RowsAffected (env : Env) (result : nat) : RawError + nat :=
  if RowsAffectedFails env then inl ErrDriver else inr result.

(** Modelled from the spec: [model.GenerateUUIDWithSuffix] is not part of
    the file; it gives an opaque random token prefixed with the tag of the
    entity type. *)
Definition GenerateUUIDWithSuffix (env : Env) (module : string) : string :=
  module +:+ NewUUID env.

Definition not_found_message (id : string) : string :=
  "Identity with ID '" +:+ id +:+ "' not found".

(** ** The five operations *)

Section Operations.
Context `{JSONCodec}.

(** The arguments of the [INSERT], in the order of its placeholders. *)
Definition insert_args (identity : Identity) (metaDataJSON : bytes) : list Value :=
  [ VString (IdentityID identity); VString (IdentityType identity);
    VString (FirstName identity); VString (LastName identity);
    VString (OtherNames identity); VString (Gender identity);
    VTime (DOB identity); VString (EmailAddress identity);
    VString (PhoneNumber identity); VString (Nationality identity);
    VString (OrganizationName identity); VString (Category identity);
    VString (Street identity); VString (Country identity);
    VString (State identity); VString (PostCode identity);
    VString (City identity); VTime (CreatedAt identity);
    VBytes metaDataJSON ].

Definition CreateIdentity (env : Env) (identity : Identity) (d : Datasource)
  : (Identity * option APIError) * Datasource :=
  match Marshal (MetaData identity) with
  | None =>
      ((identity,
        Some (NewAPIError ErrInternalServer "Failed to marshal metadata" (Some ErrJSON))),
       d)
  | Some metaDataJSON =>
      let identity := set_IdentityID (GenerateUUIDWithSuffix env "idt") identity in
      let identity := set_CreatedAt (Now env) identity in
      let '(result, d) :=
        Exec env (InsertIdentity IdentityColumns) (insert_args identity metaDataJSON) d in
      match result with
      | inl err =>
          ((identity,
            Some (NewAPIError ErrInternalServer "Failed to create identity" (Some err))),
           d)
      | inr _ => ((identity, None), d)
      end
  end.

(** [tx.QueryRow(...)] followed by [row.Scan(...)]: an error of the query
    is reported by the scan, as is the absence of a row. *)
Definition QueryRow_Scan (env : Env) (id : string) (d : Datasource)
  : RawError + (Identity * bytes) :=
  if QueryFails env then inl ErrDriver
  else match select_by_id (VString id) (table d) with
       | None => inl ErrNoRows
       | Some src =>
           match Scan src with
           | None => inl ErrScan
           | Some r => inr r
           end
       end.

Definition GetIdentityByID (env : Env) (id : string) (d : Datasource)
  : (option Identity * option APIError) * Datasource :=
  let d := record_call CallBeginTx d in
  if BeginTxFails env then
    ((None,
      Some (NewAPIError ErrInternalServer "Failed to begin transaction" (Some ErrDriver))),
     d)
  else
    let d := record_call (CallQueryRow id) d in
    match QueryRow_Scan env id d with
    | inl err =>
        let d := record_call CallRollback d in
        match err with
        | ErrNoRows =>
            ((None, Some (NewAPIError ErrNotFound (not_found_message id) (Some err))), d)
        | _ =>
            ((None,
              Some (NewAPIError ErrInternalServer "Failed to retrieve identity" (Some err))),
             d)
        end
    | inr (identity, metaDataJSON) =>
        match Unmarshal metaDataJSON with
        | None =>
            let d := record_call CallRollback d in
            ((None,
              Some (NewAPIError ErrInternalServer "Failed to unmarshal metadata"
                      (Some ErrJSON))),
             d)
        | Some metaData =>
            let identity := set_MetaData metaData identity in
            let d := record_call CallCommit d in
            if CommitFails env then
              ((None,
                Some (NewAPIError ErrInternalServer "Failed to commit transaction"
                        (Some ErrDriver))),
               d)
            else ((Some identity, None), d)
        end
    end.

(** The loop [for rows.Next() { ... }] over the selected rows, with the
    slice [identities] built so far. *)
Fixpoint scan_rows (rows : list (list Value)) (identities : list Identity)
  : APIError + list Identity :=
  match rows with
  | [] => inr identities
  | src :: rows =>
      match Scan src with
      | None =>
          inl (NewAPIError ErrInternalServer "Failed to scan identity data" (Some ErrScan))
      | Some (identity, metaDataJSON) =>
          match Unmarshal metaDataJSON with
          | None =>
              inl (NewAPIError ErrInternalServer "Failed to unmarshal metadata"
                     (Some ErrJSON))
          | Some metaData =>
              scan_rows rows (identities ++ [set_MetaData metaData identity])
          end
      end
  end.

Definition GetAllIdentities (env : Env) (d : Datasource)
  : (list Identity * option APIError) * Datasource :=
  let d := record_call CallQuery d in
  if QueryFails env then
    (([], Some (NewAPIError ErrInternalServer "Failed to retrieve identities"
                  (Some ErrDriver))),
     d)
  else
    match scan_rows (select_all_ordered (table d)) [] with
    | inl err => (([], Some err), d)
    | inr identities =>
        if RowsErrFails env then
          (([], Some (NewAPIError ErrInternalServer
                        "Error occurred while iterating over identities"
                        (Some ErrDriver))),
           d)
        else ((identities, None), d)
    end.

(** The three variables the closure [addField] of [UpdateIdentity] updates. *)
Record UpdateVars : Type := mkUpdateVars {
  setFields : list SetField;
  args : list Value;
  argPosition : nat;
}.

(** The three statements every branch of [addField] runs. *)
Definition appendField (fieldName : string) (v : Value) (s : UpdateVars) : UpdateVars :=
  mkUpdateVars (setFields s ++ [mkSetField fieldName (argPosition s)])
               (args s ++ [v])
               (S (argPosition s)).

Definition addField (value : Value) (fieldName : string) (s : UpdateVars) : UpdateVars :=
  match value with
  | VTime v => if negb (IsZero v) then appendField fieldName (VTime v) s else s
  | VString v => if negb (bool_decide (v = "")) then appendField fieldName (VString v) s else s
  | v => if negb (bool_decide (v = VNil)) then appendField fieldName v s else s
  end.

(** The end of [UpdateIdentity], from the test on [len(setFields)] on:
    the query is built from the three variables, run, and its result
    checked. *)
Definition runUpdate (env : Env) (identity : Identity) (s : UpdateVars)
    (d : Datasource) : option APIError * Datasource :=
  if bool_decide (length (setFields s) = 0%nat) then
    (Some (NewAPIError ErrBadRequest "No fields provided for update" None), d)
  else
    let query := UpdateIdentitySet (setFields s) (argPosition s) in
    let args := args s ++ [VString (IdentityID identity)] in
    let '(result, d) := Exec env query args d in
    match result with
    | inl err =>
        (Some (NewAPIError ErrInternalServer "Failed to update identity" (Some err)), d)
    | inr result =>
        match RowsAffected env result with
        | inl err =>
            (Some (NewAPIError ErrInternalServer "Failed to get rows affected" (Some err)),
             d)
        | inr rowsAffected =>
            if bool_decide (rowsAffected = 0%nat) then
              (Some (NewAPIError ErrNotFound (not_found_message (IdentityID identity)) None),
               d)
            else (None, d)
        end
    end.

Definition UpdateIdentity (env : Env) (identity : Identity) (d : Datasource)
  : option APIError * Datasource :=
  let s := mkUpdateVars [] [] 1 in
  let s := addField (VString (IdentityType identity)) "identity_type" s in
  let s := addField (VString (FirstName identity)) "first_name" s in
  let s := addField (VString (LastName identity)) "last_name" s in
  let s := addField (VString (OtherNames identity)) "other_names" s in
  let s := addField (VString (Gender identity)) "gender" s in
  let s := addField (VTime (DOB identity)) "dob" s in
  let s := addField (VString (EmailAddress identity)) "email_address" s in
  let s := addField (VString (PhoneNumber identity)) "phone_number" s in
  let s := addField (VString (Nationality identity)) "nationality" s in
  let s := addField (VString (OrganizationName identity)) "organization_name" s in
  let s := addField (VString (Category identity)) "category" s in
  let s := addField (VString (Street identity)) "street" s in
  let s := addField (VString (Country identity)) "country" s in
  let s := addField (VString (State identity)) "state" s in
  let s := addField (VString (PostCode identity)) "post_code" s in
  let s := addField (VString (City identity)) "city" s in
  match MetaData identity with
  | Some _ =>
      match Marshal (MetaData identity) with
      | None =>
          (Some (NewAPIError ErrInternalServer "Failed to marshal metadata" (Some ErrJSON)),
           d)
      | Some metaDataJSON =>
          runUpdate env identity (appendField "meta_data" (VBytes metaDataJSON) s) d
      end
  | None => runUpdate env identity s d
  end.

Definition DeleteIdentity (env : Env) (id : string) (d : Datasource)
  : option APIError * Datasource :=
  let '(result, d) := Exec env DeleteIdentityByID [VString id] d in
  match result with
  | inl err =>
      (Some (NewAPIError ErrInternalServer "Failed to delete identity" (Some err)), d)
  | inr result =>
      match RowsAffected env result with
      | inl err =>
          (Some (NewAPIError ErrInternalServer "Failed to get rows affected" (Some err)), d)
      | inr rowsAffected =>
          if bool_decide (rowsAffected = 0%nat) then
            (Some (NewAPIError ErrNotFound (not_found_message id) None), d)
          else (None, d)
      end
  end.

End Operations.

(** ** A codec to run the operations with

    A printer and a parser of JSON texts over [Any], for evaluating the
    operations on concrete identities.  Objects are printed with their keys
    in increasing order and without white space, as [encoding/json] prints
    a map.  Numbers are integers; in strings only the quote and the
    backslash are escaped. *)
Module TextCodec.

Definition dquote : ascii := ascii_of_nat 34.
Definition backslash : ascii := ascii_of_nat 92.

Definition escape_char (c : ascii) : string :=
  if bool_decide (c = dquote ∨ c = backslash) then String backslash (String c "")
  else String c "".

Fixpoint escape (s : string) : string :=
  match s with
  | "" => ""
  | String c s => escape_char c +:+ escape s
  end.

Definition quote (s : string) : string :=
  String dquote (escape s +:+ String dquote "").

Definition member_le (a b : string * string) : Prop := String.leb a.1 b.1 = true.

#[local] Instance member_le_dec : RelDecision member_le.
Proof. intros a b. unfold member_le. apply _. Defined.

Fixpoint encode (a : Any) : option string :=
  match a with
  | ANil => Some "null"
  | ABool true => Some "true"
  | ABool false => Some "false"
  | ANumber z => Some (pretty z)
  | AString s => Some (quote s)
  | ASlice l =>
      items ← mapM encode l;
      Some ("[" +:+ Join items "," +:+ "]")
  | AMap m =>
      members ← map_fold (λ k v acc, l ← acc; e ← encode v; Some ((k, e) :: l))
                         (Some []) m;
      Some ("{" +:+
            Join ((λ ke, quote ke.1 +:+ ":" +:+ ke.2) <$> merge_sort member_le members) ","
            +:+ "}")
  | AFunc => None
  end.

Definition is_space (c : ascii) : bool :=
  bool_decide (c = " "%char ∨ c = ascii_of_nat 9 ∨ c = ascii_of_nat 10 ∨ c = ascii_of_nat 13).

Fixpoint skip_space (s : string) : string :=
  match s with
  | String c rest => if is_space c then skip_space rest else s
  | "" => ""
  end.

Fixpoint strip_prefix (p s : string) : option string :=
  match p, s with
  | "", _ => Some s
  | String a p, String b s => if bool_decide (a = b) then strip_prefix p s else None
  | _, _ => None
  end.

Definition digit_of (c : ascii) : option Z :=
  let n := Z.of_nat (nat_of_ascii c) in
  if bool_decide (48 ≤ n ≤ 57) then Some (n - 48) else None.

Fixpoint parse_digits (acc : Z) (s : string) : Z * string :=
  match s with
  | String c rest =>
      match digit_of c with
      | Some k => parse_digits (10 * acc + k) rest
      | None => (acc, s)
      end
  | "" => (acc, "")
  end.

Definition parse_natural (s : string) : option (Z * string) :=
  match s with
  | String c _ =>
      match digit_of c with
      | Some _ => Some (parse_digits 0 s)
      | None => None
      end
  | "" => None
  end.

(** The characters after an opening quote, up to the closing one. *)
Fixpoint parse_chars (s : string) : option (string * string) :=
  match s with
  | "" => None
  | String c rest =>
      if bool_decide (c = dquote) then Some ("", rest)
      else if bool_decide (c = backslash) then
        match rest with
        | String e rest =>
            if bool_decide (e = dquote ∨ e = backslash) then
              '(t, rest) ← parse_chars rest; Some (String e t, rest)
            else None
        | "" => None
        end
      else '(t, rest) ← parse_chars rest; Some (String c t, rest)
  end.

Inductive Mode : Type :=
| PValue
| PElements (acc : list Any)
| PMembers (acc : gmap string Any).

Fixpoint parse (fuel : nat) (m : Mode) (s : string) : option (Any * string) :=
  match fuel with
  | O => None
  | S fuel =>
      match m with
      | PValue =>
          match skip_space s with
          | String c rest =>
              if bool_decide (c = dquote) then
                '(t, rest) ← parse_chars rest; Some (AString t, rest)
              else if bool_decide (c = "["%char) then
                match skip_space rest with
                | String "]"%char rest => Some (ASlice [], rest)
                | _ => parse fuel (PElements []) rest
                end
              else if bool_decide (c = "{"%char) then
                match skip_space rest with
                | String "}"%char rest => Some (AMap ∅, rest)
                | _ => parse fuel (PMembers ∅) rest
                end
              else if bool_decide (c = "-"%char) then
                '(z, rest) ← parse_natural rest; Some (ANumber (- z), rest)
              else if bool_decide (c = "n"%char) then
                rest ← strip_prefix "ull" rest; Some (ANil, rest)
              else if bool_decide (c = "t"%char) then
                rest ← strip_prefix "rue" rest; Some (ABool true, rest)
              else if bool_decide (c = "f"%char) then
                rest ← strip_prefix "alse" rest; Some (ABool false, rest)
              else '(z, rest) ← parse_natural (String c rest); Some (ANumber z, rest)
          | "" => None
          end
      | PElements acc =>
          '(v, rest) ← parse fuel PValue s;
          match skip_space rest with
          | String ","%char rest => parse fuel (PElements (acc ++ [v])) rest
          | String "]"%char rest => Some (ASlice (acc ++ [v]), rest)
          | _ => None
          end
      | PMembers acc =>
          match skip_space s with
          | String c rest =>
              if bool_decide (c = dquote) then
                '(k, rest) ← parse_chars rest;
                match skip_space rest with
                | String ":"%char rest =>
                    '(v, rest) ← parse fuel PValue rest;
                    match skip_space rest with
                    | String ","%char rest => parse fuel (PMembers (<[k:=v]> acc)) rest
                    | String "}"%char rest => Some (AMap (<[k:=v]> acc), rest)
                    | _ => None
                    end
                | _ => None
                end
              else None
          | "" => None
          end
      end
  end.

Definition marshal (m : MetaDataMap) : option bytes :=
  match m with
  | None => Some "null"
  | Some m => encode (AMap m)
  end.

Definition unmarshal (data : bytes) : option MetaDataMap :=
  '(v, rest) ← parse (S (String.length data)) PValue data;
  if bool_decide (skip_space rest = "") then
    match v with
    | ANil => Some None
    | AMap m => Some (Some m)
    | _ => None
    end
  else None.

End TextCodec.

#[global] Instance json_text : JSONCodec :=
  {| Marshal := TextCodec.marshal; Unmarshal := TextCodec.unmarshal |}.

(** ** The claims of the specification, in its words *)

(** The updatable fields in the canonical order of the entity, each with
    the value [UpdateIdentity] examines. *)
Definition updatable_fields (identity : Identity) : list (string * Value) :=
  [ ("identity_type", VString (IdentityType identity));
    ("first_name", VString (FirstName identity));
    ("last_name", VString (LastName identity));
    ("other_names", VString (OtherNames identity));
    ("gender", VString (Gender identity));
    ("dob", VTime (DOB identity));
    ("email_address", VString (EmailAddress identity));
    ("phone_number", VString (PhoneNumber identity));
    ("nationality", VString (Nationality identity));
    ("organization_name", VString (OrganizationName identity));
    ("category", VString (Category identity));
    ("street", VString (Street identity));
    ("country", VString (Country identity));
    ("state", VString (State identity));
    ("post_code", VString (PostCode identity));
    ("city", VString (City identity)) ].

(** A field contributes when it is non-empty (a string), non-zero (a
    time) or non-nil (any other type). *)
Definition contributes (v : Value) : Prop :=
  match v with
  | VString s => s ≠ ""
  | VTime t => t ≠ 0
  | v => v ≠ VNil
  end.

#[global] Instance contributes_dec v : Decision (contributes v).
Proof. destruct v; simpl; apply _. Defined.

(** The metadata entry, present when the mapping is not nil; its value is
    the serialized mapping. *)
Definition metadata_field (identity : Identity) (metaDataJSON : bytes)
  : list (string * Value) :=
  match MetaData identity with
  | Some _ => [("meta_data", VBytes metaDataJSON)]
  | None => []
  end.

(** The fields that qualify for the update, in canonical order. *)
Definition qualifying_fields (identity : Identity) (metaDataJSON : bytes)
  : list (string * Value) :=
  filter (λ fv, contributes fv.2) (updatable_fields identity)
  ++ metadata_field identity metaDataJSON.

Definition qualifying_columns (identity : Identity) : list string :=
  (qualifying_fields identity "").*1.

(** Placeholders numbered sequentially from 1. *)
Definition numbered (names : list string) : list SetField :=
  zip_with mkSetField names (seq 1 (length names)).

(** The metadata could be serialized where [UpdateIdentity] serializes it. *)
Definition marshals_to `{JSONCodec} (identity : Identity) (metaDataJSON : bytes) : Prop :=
  MetaData identity ≠ None → Marshal (MetaData identity) = Some metaDataJSON.

(** One row read back as an identity: scan, then unmarshal. *)
Definition decode `{JSONCodec} (src : list Value) : option Identity :=
  '(identity, metaDataJSON) ← Scan src;
  metaData ← Unmarshal metaDataJSON;
  Some (set_MetaData metaData identity).

(** No driver call of the environment fails. *)
Definition no_faults (env : Env) : Prop :=
  ExecFails env = false ∧ RowsAffectedFails env = false ∧ BeginTxFails env = false
  ∧ QueryFails env = false ∧ CommitFails env = false ∧ RowsErrFails env = false.

Definition quiet (now : Time) (uuid : string) : Env :=
  mkEnv now uuid false false false false false false.

(** ** Sample data *)

Definition sample_meta : gmap string Any :=
  <["tier" := AString "gold"]>
    (<["limits" := ASlice [ANumber 5; ANumber (-2); ABool true; ANil]]>
       (<["org" := AMap (<["name" := AString "blnk"]> ∅)]> ∅)).

Definition ada : Identity :=
  mkIdentity "caller-chosen" "individual" "A" "B" "" "" 0 "ada@example.com" "" "" "" ""
    "" "" "" "" "" 7 (Some sample_meta).

Definition empty_store : Datasource := mkDatasource [] [].

(** The JSON text of [sample_meta]. *)
Definition sample_json : bytes :=
  Eval vm_compute in default "" (TextCodec.marshal (Some sample_meta)).

(** An identity with nothing but an identifier. *)
Definition only_id : Identity := set_IdentityID "idt_1" zeroIdentity.

(** The same with a metadata mapping that is present and empty. *)
Definition empty_meta : Identity := set_MetaData (Some ∅) only_id.

(** A stored row, as [CreateIdentity] writes it. *)
Definition row_of (identity : Identity) (metaDataJSON : bytes) : Row :=
  list_to_map (zip IdentityColumns (insert_args identity metaDataJSON)).

(** The variables of [UpdateIdentity] once the fields [q] have been added. *)
Definition vars_of (q : list (string * Value)) : UpdateVars :=
  mkUpdateVars (numbered q.*1) q.*2 (S (length q)).

(** What the [UPDATE] built from the fields [q] does to a row. *)
Definition update_row (id : Value) (q : list (string * Value)) (r : Row) : Row :=
  if matches_id id r then foldl assign r q else r.

(** The calls a run of [UpdateIdentity] adds to those made before it. *)
Definition issued_by_update `{JSONCodec} (env : Env) (identity : Identity)
    (d : Datasource) : list Call :=
  drop (length (calls d)) (calls (UpdateIdentity env identity d).2).

(** The run of [UpdateIdentity] has column [c] in the [SET] clause of a
    statement it executes. *)
Definition sets_column `{JSONCodec} (env : Env) (identity : Identity) (d : Datasource)
    (c : string) : Prop :=
  ∃ assignments wherePosition args,
    CallExec (UpdateIdentitySet assignments wherePosition) args
      ∈ issued_by_update env identity d
    ∧ c ∈ fieldName <$> assignments.

(** The calls a run of [GetIdentityByID] adds to those made before it. *)
Definition issued_by_get `{JSONCodec} (env : Env) (id : string) (d : Datasource)
  : list Call :=
  drop (length (calls d)) (calls (GetIdentityByID env id d).2).

(** A failing run of [GetIdentityByID] whose transaction had begun has
    rolled it back. *)
Definition rolled_back_on_failure `{JSONCodec} (env : Env) (id : string)
    (d : Datasource) : Prop :=
  BeginTxFails env = false →
  is_Some (GetIdentityByID env id d).1.2 →
  CallRollback ∈ issued_by_get env id d.

(** No stored row has the identifier [id]. *)
Definition no_row_with (id : string) (d : Datasource) : Prop :=
  ∀ r, r ∈ table d → col r "identity_id" ≠ VString id.

(** The store after [ada] has been created in the empty one, at time 100
    with the token [_u1]. *)
Definition ada_created : Identity := set_CreatedAt 100 (set_IdentityID "idt_u1" ada).

Definition ada_store : Datasource :=
  (CreateIdentity (quiet 100 "_u1") ada empty_store).2.

(** An update of the first name of [ada] alone. *)
Definition rename_ada : Identity :=
  mkIdentity "idt_u1" "" "C" "" "" "" 0 "" "" "" "" "" "" "" "" "" "" 0 None.

(** An environment in which the commit fails, and nothing else. *)
Definition commit_fails : Env := mkEnv 200 "" false false false false true false.

(** Three identities created at the times 1, 2 and 3. *)
Definition three_store : Datasource :=
  let d := (CreateIdentity (quiet 1 "_a") only_id empty_store).2 in
  let d := (CreateIdentity (quiet 2 "_b") ada d).2 in
  (CreateIdentity (quiet 3 "_c") empty_meta d).2.

(** A store whose only row holds bytes that are no JSON text. *)
Definition broken_store : Datasource :=
  mkDatasource [row_of ada_created "{"] [].

(** A mapping [encoding/json] refuses to serialize. *)
Definition unserializable : Identity := set_MetaData (Some {["hook" := AFunc]}) ada.

(** ** Further notions *)

(** The constraint of the primary key on the content of the table: every
    row has an identifier, and no two rows have the same. *)
Definition primary_key (t : list Row) : Prop :=
  Forall (λ r, col r "identity_id" ≠ VNil) t
  ∧ NoDup ((λ r, col r "identity_id") <$> t).

(** The calls a run of an operation adds to those made before it. *)
Definition issued (d d' : Datasource) : list Call :=
  drop (length (calls d)) (calls d').

Definition is_exec (c : Call) : Prop :=
  match c with
  | CallExec _ _ => True
  | _ => False
  end.

(** A field of the stored identity as an update leaves it: the value of
    the update when it contributes, the stored one otherwise. *)
Definition patch_string (update stored : string) : string :=
  if decide (update = "") then stored else update.

Definition patch_time (update stored : Time) : Time :=
  if IsZero update then stored else update.

Definition patch_metadata (update stored : MetaDataMap) : MetaDataMap :=
  match update with
  | Some _ => update
  | None => stored
  end.

(** A column after an update whose field has the value [v]: [v] when it
    contributes, what the column held otherwise. *)
Definition patch_value (v stored : Value) : Value :=
  if decide (contributes v) then v else stored.

(** The stored identity after the partial update [update]. *)
Definition patched (stored update : Identity) : Identity :=
  mkIdentity (IdentityID stored)
    (patch_string (IdentityType update) (IdentityType stored))
    (patch_string (FirstName update) (FirstName stored))
    (patch_string (LastName update) (LastName stored))
    (patch_string (OtherNames update) (OtherNames stored))
    (patch_string (Gender update) (Gender stored))
    (patch_time (DOB update) (DOB stored))
    (patch_string (EmailAddress update) (EmailAddress stored))
    (patch_string (PhoneNumber update) (PhoneNumber stored))
    (patch_string (Nationality update) (Nationality stored))
    (patch_string (OrganizationName update) (OrganizationName stored))
    (patch_string (Category update) (Category stored))
    (patch_string (Street update) (Street stored))
    (patch_string (Country update) (Country stored))
    (patch_string (State update) (State stored))
    (patch_string (PostCode update) (PostCode stored))
    (patch_string (City update) (City stored))
    (CreatedAt stored)
    (patch_metadata (MetaData update) (MetaData stored)).

(** An environment in which reading the number of affected rows fails,
    and nothing else. *)
Definition rows_affected_fails : Env := mkEnv 300 "" false true false false false false.

(** * Properties *)

(** ** The statements *)

Lemma length_numbered names : length (numbered names) = length names.
Proof.
  unfold numbered. rewrite length_zip_with, length_seq. lia.
Qed.

Lemma numbered_snoc names n :
  numbered (names ++ [n]) = numbered names ++ [mkSetField n (S (length names))].
Proof.
  unfold numbered. rewrite length_app. simpl.
  rewrite seq_app, zip_with_app by (rewrite length_seq; done).
  simpl. do 3 f_equal.
Qed.

Lemma numbered_fieldName names : fieldName <$> numbered names = names.
Proof.
  induction names as [|n names IH] using rev_ind; [done|].
  rewrite numbered_snoc, !fmap_app, IH. done.
Qed.

Lemma numbered_lookup names k n :
  names !! k = Some n → numbered names !! k = Some (mkSetField n (S k)).
Proof.
  intros Hk. unfold numbered. rewrite lookup_zip_with, Hk. simpl.
  rewrite lookup_seq_lt by (by eapply lookup_lt_Some). done.
Qed.

(** Every placeholder of the numbered entries is bound to the value of
    its own field. *)
Lemma bind_assignments_numbered (q : list (string * Value)) (rest : list Value) :
  bind_assignments (q.*2 ++ rest) (numbered q.*1) = Some q.
Proof.
  unfold bind_assignments. apply mapM_Some_2, Forall2_same_length_lookup_2.
  - rewrite length_numbered, length_fmap. done.
  - intros k f [n v] Hf Hq.
    rewrite (numbered_lookup _ k n) in Hf by (rewrite list_lookup_fmap, Hq; done).
    injection Hf as <-. simpl.
    rewrite lookup_app_l by (rewrite length_fmap; by eapply lookup_lt_Some).
    rewrite list_lookup_fmap, Hq. done.
Qed.

Lemma where_placeholder (q : list (string * Value)) (id : Value) :
  placeholder_arg (q.*2 ++ [id]) (S (length q)) = Some id.
Proof.
  simpl. rewrite lookup_app_r by (rewrite length_fmap; done).
  rewrite length_fmap, Nat.sub_diag. done.
Qed.

Lemma run_update_statement (q : list (string * Value)) (id : Value) (t : list Row) :
  run_statement (UpdateIdentitySet (numbered q.*1) (S (length q))) (q.*2 ++ [id]) t
  = Some (update_row id q <$> t, length (filter (λ r, matches_id id r = true) t)).
Proof.
  unfold run_statement.
  rewrite where_placeholder, bind_assignments_numbered. done.
Qed.

Lemma assign_other (q : list (string * Value)) (r : Row) (c : string) :
  c ∉ q.*1 → foldl assign r q !! c = r !! c.
Proof.
  revert r. induction q as [|[c' v] q IH]; intros r Hc; [done|].
  simpl in *. apply not_elem_of_cons in Hc as [Hne Hc].
  rewrite IH by done.
  unfold assign. simpl. by rewrite lookup_insert_ne.
Qed.

Lemma assign_last (q : list (string * Value)) (r : Row) (c : string) (v : Value) :
  foldl assign r (q ++ [(c, v)]) !! c = Some v.
Proof.
  rewrite foldl_app. simpl. unfold assign at 1. simpl. apply lookup_insert_eq.
Qed.

Lemma no_match_filter (id : Value) (t : list Row) :
  existsb (matches_id id) t = false → filter (λ r, matches_id id r = true) t = [].
Proof.
  induction t as [|r t IH]; [done|].
  simpl. intros [Hr Ht]%orb_false_iff.
  rewrite filter_cons_False by (rewrite Hr; done). auto.
Qed.

Lemma no_match_update (id : Value) (q : list (string * Value)) (t : list Row) :
  filter (λ r, matches_id id r = true) t = [] → update_row id q <$> t = t.
Proof.
  induction t as [|r t IH]; [done|].
  rewrite filter_cons, fmap_cons. unfold update_row at 1.
  destruct (matches_id id r); simpl; [done|].
  intros Ht. rewrite IH by done. done.
Qed.

Lemma no_match_delete (id : Value) (t : list Row) :
  filter (λ r, matches_id id r = true) t = [] →
  filter (λ r, matches_id id r = false) t = t.
Proof.
  induction t as [|r t IH]; [done|].
  rewrite !filter_cons.
  destruct (matches_id id r); simpl; [done|].
  intros Ht. rewrite IH by done. done.
Qed.

Lemma filter_none {A} (P : A → Prop) `{!∀ x, Decision (P x)} (l : list A) :
  Forall (λ x, ¬ P x) l → filter P l = [].
Proof.
  induction 1 as [|x l Hx _ IH]; [done|]. by rewrite filter_cons_False.
Qed.

Lemma no_row_matches_filter (id : string) (t : list Row) :
  (∀ r, r ∈ t → col r "identity_id" ≠ VString id) →
  filter (λ r, matches_id (VString id) r = true) t = [].
Proof.
  intros Hno. apply no_match_filter, not_true_iff_false.
  intros (r & Hr%list_elem_of_In & Hm)%existsb_exists.
  apply (Hno r Hr). unfold matches_id, sql_eq in Hm.
  destruct (col r "identity_id"); try done; by apply bool_decide_eq_true in Hm.
Qed.

Lemma numbered_placeholder names : placeholder <$> numbered names = seq 1 (length names).
Proof.
  induction names as [|n names IH] using rev_ind; [done|].
  rewrite numbered_snoc, fmap_app, IH, length_app, seq_app. simpl. done.
Qed.

(** ** [UpdateIdentity]: the fields it collects *)

Lemma appendField_vars_of (q : list (string * Value)) (name : string) (v : Value) :
  appendField name v (vars_of q) = vars_of (q ++ [(name, v)]).
Proof.
  unfold appendField, vars_of. simpl.
  rewrite !fmap_app. simpl.
  rewrite numbered_snoc, length_app, !length_fmap. simpl.
  f_equal. lia.
Qed.

(** [addField] adds the field exactly when its value contributes. *)
Lemma addField_vars_of (q : list (string * Value)) (name : string) (v : Value) :
  addField v name (vars_of q)
  = vars_of (q ++ filter (λ fv, contributes fv.2) [(name, v)]).
Proof.
  rewrite filter_cons, filter_nil.
  destruct v as [|s|t|b]; simpl; unfold IsZero;
    repeat case_bool_decide; repeat case_decide; simpl in *;
    rewrite ?appendField_vars_of, ?app_nil_r; done.
Qed.

Section Update.
Context `{JSONCodec}.

(** [UpdateIdentity] runs the end of the function on the qualifying
    fields, unless the metadata cannot be serialized. *)
Lemma UpdateIdentity_eq (env : Env) (identity : Identity) (d : Datasource) :
  UpdateIdentity env identity d =
  match MetaData identity with
  | Some _ =>
      match Marshal (MetaData identity) with
      | None =>
          (Some (NewAPIError ErrInternalServer "Failed to marshal metadata" (Some ErrJSON)),
           d)
      | Some metaDataJSON =>
          runUpdate env identity (vars_of (qualifying_fields identity metaDataJSON)) d
      end
  | None => runUpdate env identity (vars_of (qualifying_fields identity "")) d
  end.
Proof.
  unfold UpdateIdentity. cbv zeta.
  change (mkUpdateVars [] [] 1) with (vars_of []).
  rewrite !addField_vars_of. rewrite <- !app_assoc, <- !filter_app. simpl app.
  fold (updatable_fields identity).
  unfold qualifying_fields, metadata_field.
  destruct (MetaData identity) as [m|]; [|by rewrite app_nil_r].
  destruct (Marshal (Some m)); [|done].
  by rewrite appendField_vars_of.
Qed.

Lemma runUpdate_nil (env : Env) (identity : Identity) (d : Datasource) :
  runUpdate env identity (vars_of []) d
  = (Some (NewAPIError ErrBadRequest "No fields provided for update" None), d).
Proof. done. Qed.

Lemma Exec_update (env : Env) (q : list (string * Value)) (id : Value) (d : Datasource) :
  Exec env (UpdateIdentitySet (numbered q.*1) (S (length q))) (q.*2 ++ [id]) d =
  let query := CallExec (UpdateIdentitySet (numbered q.*1) (S (length q))) (q.*2 ++ [id]) in
  if ExecFails env then (inl ErrDriver, record_call query d)
  else (inr (length (filter (λ r, matches_id id r = true) (table d))),
        mkDatasource (update_row id q <$> table d) (calls d ++ [query])).
Proof.
  unfold Exec, record_call. cbn [table calls].
  rewrite run_update_statement. done.
Qed.

Lemma runUpdate_calls env identity (q : list (string * Value)) d :
  q ≠ [] →
  calls (runUpdate env identity (vars_of q) d).2 =
  calls d ++ [CallExec (UpdateIdentitySet (numbered q.*1) (S (length q)))
                (q.*2 ++ [VString (IdentityID identity)])].
Proof.
  intros Hq. unfold runUpdate. simpl.
  rewrite length_numbered, length_fmap.
  rewrite bool_decide_eq_false_2 by (by destruct q).
  rewrite Exec_update. cbv zeta.
  destruct (ExecFails env); [done|].
  unfold RowsAffected. destruct (RowsAffectedFails env); [done|].
  by case_bool_decide.
Qed.

Lemma runUpdate_table env identity (q : list (string * Value)) d :
  table (runUpdate env identity (vars_of q) d).2 = table d ∨
  table (runUpdate env identity (vars_of q) d).2
  = update_row (VString (IdentityID identity)) q <$> table d.
Proof.
  unfold runUpdate. simpl.
  case_bool_decide; [by left|].
  rewrite Exec_update. cbv zeta.
  destruct (ExecFails env); [by left|].
  unfold RowsAffected. destruct (RowsAffectedFails env); [by right|].
  case_bool_decide; by right.
Qed.

Lemma runUpdate_success env identity (q : list (string * Value)) d d' :
  runUpdate env identity (vars_of q) d = (None, d') →
  table d' = update_row (VString (IdentityID identity)) q <$> table d.
Proof.
  unfold runUpdate. simpl.
  case_bool_decide; [done|].
  rewrite Exec_update. cbv zeta.
  destruct (ExecFails env); [done|].
  unfold RowsAffected. destruct (RowsAffectedFails env); [done|].
  case_bool_decide; [done|]. by intros [= <-].
Qed.

Lemma runUpdate_not_found env identity (q : list (string * Value)) d :
  q ≠ [] → ExecFails env = false → RowsAffectedFails env = false →
  filter (λ r, matches_id (VString (IdentityID identity)) r = true) (table d) = [] →
  ∃ issued,
    runUpdate env identity (vars_of q) d
    = (Some (NewAPIError ErrNotFound (not_found_message (IdentityID identity)) None),
       mkDatasource (table d) (calls d ++ [issued])).
Proof.
  intros Hq Hexec Hrows Hnone. unfold runUpdate. simpl.
  rewrite length_numbered, length_fmap.
  rewrite bool_decide_eq_false_2 by (by destruct q).
  rewrite Exec_update. cbv zeta. rewrite Hexec.
  unfold RowsAffected. rewrite Hrows, Hnone. simpl.
  rewrite no_match_update by done. eauto.
Qed.

(** When the metadata can be serialized, [UpdateIdentity] is the end of
    the function run on the qualifying fields. *)
Lemma UpdateIdentity_run env identity d (metaDataJSON : bytes) :
  marshals_to identity metaDataJSON →
  UpdateIdentity env identity d
  = runUpdate env identity (vars_of (qualifying_fields identity metaDataJSON)) d.
Proof.
  intros Hjson. rewrite UpdateIdentity_eq. unfold marshals_to in Hjson.
  destruct (MetaData identity) as [m|] eqn:Hm.
  - by rewrite Hjson.
  - unfold qualifying_fields, metadata_field. by rewrite Hm.
Qed.

Lemma UpdateIdentity_table env identity d :
  table (UpdateIdentity env identity d).2 = table d ∨
  ∃ metaDataJSON,
    table (UpdateIdentity env identity d).2
    = update_row (VString (IdentityID identity))
        (qualifying_fields identity metaDataJSON) <$> table d.
Proof.
  rewrite UpdateIdentity_eq.
  destruct (MetaData identity); [destruct (Marshal _) as [j|]; [|by left]|].
  - destruct (runUpdate_table env identity (qualifying_fields identity j) d);
      [by left | right; eauto].
  - destruct (runUpdate_table env identity (qualifying_fields identity "") d);
      [by left | right; eauto].
Qed.

End Update.

(** ** [UpdateIdentity]: the columns of the [SET] clause *)

Lemma qualifying_fields_names identity j :
  (qualifying_fields identity j).*1 = qualifying_columns identity.
Proof.
  unfold qualifying_columns, qualifying_fields, metadata_field.
  rewrite !fmap_app. by destruct (MetaData identity).
Qed.

Lemma qualifying_columns_updatable identity c :
  c ∈ qualifying_columns identity →
  c ∈ (updatable_fields identity).*1 ∨ (c = "meta_data" ∧ MetaData identity ≠ None).
Proof.
  unfold qualifying_columns, qualifying_fields, metadata_field.
  rewrite fmap_app, elem_of_app. intros [Hc|Hc].
  - left. apply list_elem_of_fmap in Hc as (fv & -> & Hfv).
    apply list_elem_of_filter in Hfv as [_ Hfv]. by apply list_elem_of_fmap_2.
  - right. destruct (MetaData identity); [|by apply elem_of_nil in Hc].
    apply list_elem_of_singleton in Hc. done.
Qed.

Ltac not_in_list H :=
  repeat (apply elem_of_cons in H as [H|H]; [discriminate H|]);
  by apply elem_of_nil in H.

Lemma identity_id_never_set identity : "identity_id" ∉ qualifying_columns identity.
Proof.
  intros [Hc|[Hc _]]%qualifying_columns_updatable; [|discriminate].
  simpl in Hc. not_in_list Hc.
Qed.

Lemma created_at_never_set identity : "created_at" ∉ qualifying_columns identity.
Proof.
  intros [Hc|[Hc _]]%qualifying_columns_updatable; [|discriminate].
  simpl in Hc. not_in_list Hc.
Qed.

Lemma meta_data_qualifies identity :
  "meta_data" ∈ qualifying_columns identity ↔ MetaData identity ≠ None.
Proof.
  split.
  - intros [Hc|[_ Hc]]%qualifying_columns_updatable; [|done].
    simpl in Hc. not_in_list Hc.
  - intros Hm. unfold qualifying_columns, qualifying_fields, metadata_field.
    rewrite fmap_app, elem_of_app. right.
    destruct (MetaData identity); [|done]. by apply list_elem_of_singleton.
Qed.

Section UpdateClaims.
Context `{JSONCodec}.

(** The calls [UpdateIdentity] adds to those already made: none, or the
    one [UPDATE] over the qualifying columns. *)
Lemma UpdateIdentity_issued (env : Env) (identity : Identity) (d : Datasource) :
  calls (UpdateIdentity env identity d).2 = calls d ∨
  ∃ args, calls (UpdateIdentity env identity d).2 =
          calls d ++ [CallExec (UpdateIdentitySet (numbered (qualifying_columns identity))
                                  (S (length (qualifying_columns identity)))) args].
Proof.
  rewrite UpdateIdentity_eq.
  assert (∀ j, let q := qualifying_fields identity j in
            calls (runUpdate env identity (vars_of q) d).2 = calls d ∨
            ∃ args, calls (runUpdate env identity (vars_of q) d).2 =
              calls d ++ [CallExec (UpdateIdentitySet (numbered (qualifying_columns identity))
                                  (S (length (qualifying_columns identity)))) args])
    as Hrun.
  { intros j q. destruct (decide (q = [])) as [->|Hq]; [by left|].
    right. eexists. rewrite runUpdate_calls by done.
    rewrite <- (qualifying_fields_names identity j), length_fmap. done. }
  destruct (MetaData identity); [|apply Hrun].
  destruct (Marshal _); [apply Hrun | by left].
Qed.

(** C2: for every identity whose metadata can be serialized and that has a
    qualifying field, [UpdateIdentity] runs one [UPDATE] whose [SET]
    clause lists exactly the fields that contribute (a non-empty string, a
    non-zero time, a non-nil metadata mapping), in the canonical order
    ending with [meta_data], with placeholders 1, 2, ... in that order;
    the identifier is the last argument and its placeholder, the next
    number, is the one of the [WHERE] clause. *)
Theorem UpdateIdentity_set_clause (env : Env) (identity : Identity) (d : Datasource)
    (metaDataJSON : bytes) :
  marshals_to identity metaDataJSON →
  qualifying_fields identity metaDataJSON ≠ [] →
  ∃ assignments wherePosition args,
    calls (UpdateIdentity env identity d).2
    = calls d ++ [CallExec (UpdateIdentitySet assignments wherePosition) args]
    ∧ fieldName <$> assignments = (qualifying_fields identity metaDataJSON).*1
    ∧ placeholder <$> assignments = seq 1 (length assignments)
    ∧ wherePosition = S (length assignments)
    ∧ args = (qualifying_fields identity metaDataJSON).*2 ++ [VString (IdentityID identity)]
    ∧ placeholder_arg args wherePosition = Some (VString (IdentityID identity))
    ∧ bind_assignments args assignments = Some (qualifying_fields identity metaDataJSON).
Proof.
  intros Hjson Hq.
  set (q := qualifying_fields identity metaDataJSON) in *.
  exists (numbered q.*1), (S (length q)), (q.*2 ++ [VString (IdentityID identity)]).
  split_and!.
  - rewrite (UpdateIdentity_run _ _ _ metaDataJSON) by done. by apply runUpdate_calls.
  - apply numbered_fieldName.
  - by rewrite numbered_placeholder, length_numbered.
  - by rewrite length_numbered, length_fmap.
  - done.
  - apply where_placeholder.
  - apply bind_assignments_numbered.
Qed.

(** C5: when no field qualifies (every string field empty, the date of
    birth zero, the metadata nil), [UpdateIdentity] returns a [BadRequest]
    error and leaves the data source as it was: no statement is run, no
    row is modified. *)
Theorem UpdateIdentity_empty_rejected (env : Env) (identity : Identity) (d : Datasource) :
  Forall (λ fv, ¬ contributes fv.2) (updatable_fields identity) →
  MetaData identity = None →
  UpdateIdentity env identity d
  = (Some (NewAPIError ErrBadRequest "No fields provided for update" None), d).
Proof.
  intros Hnone Hmeta. rewrite UpdateIdentity_eq, Hmeta.
  unfold qualifying_fields, metadata_field. rewrite Hmeta, app_nil_r.
  rewrite filter_none by done. apply runUpdate_nil.
Qed.

End UpdateClaims.

Section UpdateFrame.
Context `{JSONCodec}.

Lemma sets_column_qualifies (env : Env) (identity : Identity) (d : Datasource) (c : string) :
  sets_column env identity d c → c ∈ qualifying_columns identity.
Proof.
  intros (assignments & w & a & Hin & Hc). unfold issued_by_update in Hin.
  destruct (UpdateIdentity_issued env identity d) as [Heq|[a' Heq]]; rewrite Heq in Hin.
  - rewrite drop_all in Hin. by apply elem_of_nil in Hin.
  - rewrite drop_app_length in Hin. apply list_elem_of_singleton in Hin.
    injection Hin as -> _ _. by rewrite numbered_fieldName in Hc.
Qed.



(** C9: whatever the outcome of [UpdateIdentity], the table keeps its
    rows, and in every row each column whose field did not qualify keeps
    its value; [identity_id] and [created_at] never qualify, are in no
    [SET] clause, and keep their value. *)
Theorem UpdateIdentity_frame (env : Env) (identity : Identity) (d : Datasource) :
  length (table (UpdateIdentity env identity d).2) = length (table d)
  ∧ (∀ k r r',
       table d !! k = Some r →
       table (UpdateIdentity env identity d).2 !! k = Some r' →
       (∀ c, c ∉ qualifying_columns identity → r' !! c = r !! c)
       ∧ r' !! "identity_id" = r !! "identity_id"
       ∧ r' !! "created_at" = r !! "created_at")
  ∧ (∀ c, sets_column env identity d c → c ∈ qualifying_columns identity)
  ∧ ¬ sets_column env identity d "identity_id"
  ∧ ¬ sets_column env identity d "created_at".
Proof.
  assert (∀ k r r',
       table d !! k = Some r →
       table (UpdateIdentity env identity d).2 !! k = Some r' →
       ∀ c, c ∉ qualifying_columns identity → r' !! c = r !! c) as Hframe.
  { intros k r r' Hk Hk' c Hc.
    destruct (UpdateIdentity_table env identity d) as [Heq|[j Heq]]; rewrite Heq in Hk'.
    - congruence.
    - rewrite list_lookup_fmap, Hk in Hk'. injection Hk' as <-.
      unfold update_row. destruct (matches_id _ r); [|done].
      apply assign_other. by rewrite qualifying_fields_names. }
  split_and!.
  - destruct (UpdateIdentity_table env identity d) as [->|[j ->]];
      [done | by rewrite length_fmap].
  - intros k r r' Hk Hk'. split_and!.
    + by apply (Hframe k).
    + apply (Hframe k r r' Hk Hk'), identity_id_never_set.
    + apply (Hframe k r r' Hk Hk'), created_at_never_set.
  - apply sets_column_qualifies.
  - intros Hs%sets_column_qualifies. by apply identity_id_never_set in Hs.
  - intros Hs%sets_column_qualifies. by apply created_at_never_set in Hs.
Qed.

End UpdateFrame.

(** ** [CreateIdentity] and [GetIdentityByID] *)

Lemma project_row_of (identity : Identity) (metaDataJSON : bytes) :
  project IdentityColumns (row_of identity metaDataJSON) = insert_args identity metaDataJSON.
Proof. vm_compute. reflexivity. Qed.

Lemma row_of_identity_id (identity : Identity) (metaDataJSON : bytes) :
  col (row_of identity metaDataJSON) "identity_id" = VString (IdentityID identity).
Proof. vm_compute. reflexivity. Qed.

Lemma Scan_insert_args (identity : Identity) (metaDataJSON : bytes) :
  Scan (insert_args identity metaDataJSON) = Some (set_MetaData None identity, metaDataJSON).
Proof. reflexivity. Qed.

Lemma run_insert (identity : Identity) (metaDataJSON : bytes) (t : list Row) :
  run_statement (InsertIdentity IdentityColumns) (insert_args identity metaDataJSON) t
  = if existsb (matches_id (VString (IdentityID identity))) t then None
    else Some (t ++ [row_of identity metaDataJSON], 1%nat).
Proof.
  unfold run_statement. rewrite bool_decide_eq_true_2 by reflexivity.
  fold (row_of identity metaDataJSON). rewrite row_of_identity_id.
  rewrite bool_decide_eq_false_2 by discriminate. done.
Qed.

Lemma matches_id_refl (r : Row) (id : string) :
  col r "identity_id" = VString id → matches_id (VString id) r = true.
Proof.
  intros Hid. unfold matches_id, sql_eq. rewrite Hid. by apply bool_decide_eq_true.
Qed.


Lemma select_by_id_none (id : string) (t : list Row) :
  (∀ r, r ∈ t → col r "identity_id" ≠ VString id) →
  select_by_id (VString id) t = None.
Proof.
  intros Hno. unfold select_by_id. by rewrite no_row_matches_filter.
Qed.

Section CreateGet.
Context `{JSONCodec}.

(** What a successful [CreateIdentity] has done. *)
Lemma CreateIdentity_success (env : Env) (identity created : Identity) (d d' : Datasource) :
  CreateIdentity env identity d = ((created, None), d') →
  ∃ metaDataJSON,
    Marshal (MetaData identity) = Some metaDataJSON
    ∧ created = set_CreatedAt (Now env) (set_IdentityID ("idt" +:+ NewUUID env) identity)
    ∧ existsb (matches_id (VString (IdentityID created))) (table d) = false
    ∧ table d' = table d ++ [row_of created metaDataJSON]
    ∧ calls d' = calls d ++ [CallExec (InsertIdentity IdentityColumns)
                               (insert_args created metaDataJSON)].
Proof.
  unfold CreateIdentity, GenerateUUIDWithSuffix.
  destruct (Marshal (MetaData identity)) as [j|]; [|done].
  unfold Exec, record_call. cbn [table calls].
  destruct (ExecFails env); [done|].
  rewrite run_insert.
  destruct (existsb _ (table d)) eqn:Hnew; [done|].
  intros [= <- <-]. exists j. done.
Qed.





(** C10: when the metadata cannot be serialized, [CreateIdentity] returns
    the identity it was given, with the identifier and the creation time
    of the caller, together with an [InternalError], and leaves the data
    source as it was: nothing is inserted, no call is made. *)
Theorem CreateIdentity_marshal_failure (env : Env) (identity : Identity) (d : Datasource) :
  Marshal (MetaData identity) = None →
  CreateIdentity env identity d
  = ((identity,
      Some (NewAPIError ErrInternalServer "Failed to marshal metadata" (Some ErrJSON))),
     d).
Proof.
  intros Hfail. unfold CreateIdentity. by rewrite Hfail.
Qed.

End CreateGet.

(** ** The transaction of [GetIdentityByID] *)

Section Transaction.
Context `{JSONCodec}.

Lemma GetIdentityByID_table (env : Env) (id : string) (d : Datasource) :
  table (GetIdentityByID env id d).2 = table d.
Proof.
  unfold GetIdentityByID.
  destruct (BeginTxFails env); [done|].
  destruct (QueryRow_Scan _ _ _) as [[]|[identity j]]; try done.
  destruct (Unmarshal j); [|done]. by destruct (CommitFails env).
Qed.

Lemma QueryRow_Scan_record (env : Env) (id : string) (d : Datasource) (c : Call) :
  QueryRow_Scan env id (record_call c d) = QueryRow_Scan env id d.
Proof. done. Qed.

(** C4, amended: once the transaction of [GetIdentityByID] has begun, a
    failure of the scan (no row among them) or of the deserialization of
    the metadata is followed by a rollback, the last call made before the
    error is returned; when the commit fails the error is returned with no
    rollback, the calls made being the begin, the query and the commit. *)
Theorem GetIdentityByID_rollback (env : Env) (id : string) (d : Datasource) :
  BeginTxFails env = false →
  (∀ err, QueryRow_Scan env id d = inl err →
     is_Some (GetIdentityByID env id d).1.2
     ∧ issued_by_get env id d = [CallBeginTx; CallQueryRow id; CallRollback])
  ∧ (∀ identity metaDataJSON,
       QueryRow_Scan env id d = inr (identity, metaDataJSON) →
       Unmarshal metaDataJSON = None →
       is_Some (GetIdentityByID env id d).1.2
       ∧ issued_by_get env id d = [CallBeginTx; CallQueryRow id; CallRollback])
  ∧ (∀ identity metaDataJSON,
       QueryRow_Scan env id d = inr (identity, metaDataJSON) →
       is_Some (Unmarshal metaDataJSON) →
       CommitFails env = true →
       (GetIdentityByID env id d).1
       = (None, Some (NewAPIError ErrInternalServer "Failed to commit transaction"
                        (Some ErrDriver)))
       ∧ issued_by_get env id d = [CallBeginTx; CallQueryRow id; CallCommit]).
Proof.
  intros Hbegin.
  unfold issued_by_get, GetIdentityByID. rewrite Hbegin, !QueryRow_Scan_record.
  split_and!.
  - intros err ->. split; [by destruct err|].
    assert (∀ r : option Identity * option APIError * Datasource,
              r.2 = record_call CallRollback
                      (record_call (CallQueryRow id) (record_call CallBeginTx d)) →
              drop (length (calls d)) (calls r.2)
              = [CallBeginTx; CallQueryRow id; CallRollback]) as Hcalls.
    { intros r ->. simpl. by rewrite <- !app_assoc, drop_app_length. }
    by destruct err; apply Hcalls.
  - intros identity j -> ->. split; [done|].
    simpl. by rewrite <- !app_assoc, drop_app_length.
  - intros identity j -> [m ->] ->. split; [done|].
    simpl. by rewrite <- !app_assoc, drop_app_length.
Qed.

End Transaction.

(** ** An identifier that matches no row *)

Section NotFound.
Context `{JSONCodec}.

Lemma DeleteIdentity_not_found (env : Env) (id : string) (d : Datasource) :
  ExecFails env = false → RowsAffectedFails env = false →
  no_row_with id d →
  DeleteIdentity env id d
  = (Some (NewAPIError ErrNotFound (not_found_message id) None),
     mkDatasource (table d) (calls d ++ [CallExec DeleteIdentityByID [VString id]])).
Proof.
  intros Hexec Hrows Hno%no_row_matches_filter.
  unfold DeleteIdentity, Exec, RowsAffected, record_call. cbn [table calls].
  rewrite Hexec. simpl. rewrite Hrows, Hno, no_match_delete by done. done.
Qed.

Lemma GetIdentityByID_not_found (env : Env) (id : string) (d : Datasource) :
  BeginTxFails env = false → QueryFails env = false →
  no_row_with id d →
  GetIdentityByID env id d
  = ((None, Some (NewAPIError ErrNotFound (not_found_message id) (Some ErrNoRows))),
     mkDatasource (table d) (calls d ++ [CallBeginTx; CallQueryRow id; CallRollback])).
Proof.
  intros Hbegin Hquery Hno%select_by_id_none.
  unfold GetIdentityByID, QueryRow_Scan, record_call. cbn [table calls].
  rewrite Hbegin, Hquery, Hno. by rewrite <- !app_assoc.
Qed.

(** C6: when no stored row has the identifier and the environment makes
    no call fail, [GetIdentityByID] returns a [NotFound] error, so does
    [UpdateIdentity] of an identity with a qualifying field (its metadata
    being serializable), and so does [DeleteIdentity]; each leaves every
    row of the table as it was. *)
Theorem missing_id_not_found (env : Env) (identity : Identity) (d : Datasource)
    (metaDataJSON : bytes) :
  no_row_with (IdentityID identity) d →
  no_faults env →
  marshals_to identity metaDataJSON →
  qualifying_fields identity metaDataJSON ≠ [] →
  let id := IdentityID identity in
  ((GetIdentityByID env id d).1
     = (None, Some (NewAPIError ErrNotFound (not_found_message id) (Some ErrNoRows)))
   ∧ table (GetIdentityByID env id d).2 = table d)
  ∧ ((UpdateIdentity env identity d).1
       = Some (NewAPIError ErrNotFound (not_found_message id) None)
     ∧ table (UpdateIdentity env identity d).2 = table d)
  ∧ ((DeleteIdentity env id d).1
       = Some (NewAPIError ErrNotFound (not_found_message id) None)
     ∧ table (DeleteIdentity env id d).2 = table d).
Proof.
  intros Hno (Hexec & Hrows & Hbegin & Hquery & _) Hjson Hq id.
  split_and!.
  - by rewrite GetIdentityByID_not_found.
  - by rewrite GetIdentityByID_not_found.
  - rewrite (UpdateIdentity_run _ _ _ metaDataJSON) by done.
    destruct (runUpdate_not_found env identity _ d Hq Hexec Hrows) as [c ->]; [|done].
    by apply no_row_matches_filter.
  - rewrite (UpdateIdentity_run _ _ _ metaDataJSON) by done.
    destruct (runUpdate_not_found env identity _ d Hq Hexec Hrows) as [c ->]; [|done].
    by apply no_row_matches_filter.
  - by rewrite DeleteIdentity_not_found.
  - by rewrite DeleteIdentity_not_found.
Qed.

End NotFound.

(** ** [GetAllIdentities] *)

#[global] Instance created_at_desc_total : Total created_at_desc.
Proof.
  intros r1 r2. unfold created_at_desc.
  destruct (timestamp_key (col r1 "created_at")), (timestamp_key (col r2 "created_at"));
    simpl; auto. lia.
Qed.

#[global] Instance created_at_desc_trans : Transitive created_at_desc.
Proof.
  intros r1 r2 r3. unfold created_at_desc.
  destruct (timestamp_key (col r1 "created_at")), (timestamp_key (col r2 "created_at")),
    (timestamp_key (col r3 "created_at")); simpl; auto; try done. lia.
Qed.

(** A row that scans has its eighteenth value, [created_at], a timestamp:
    the creation time of the identity read. *)
Lemma Scan_created_at (src : list Value) (identity : Identity) (metaDataJSON : bytes) :
  Scan src = Some (identity, metaDataJSON) →
  timestamp_key <$> src !! 17%nat = Some (Some (CreatedAt identity)).
Proof.
  unfold Scan. intros Hscan.
  do 19 (destruct src as [|? src]; [discriminate Hscan|]).
  destruct src; [|discriminate Hscan].
  simplify_option_eq.
  match goal with Hc : scan_time ?v = Some ?t |- context [timestamp_key ?v] =>
    destruct v; simplify_eq/=; done end.
Qed.

Lemma mapM_cons {A B} (f : A → option B) (x : A) (l : list A) :
  mapM f (x :: l) = y ← f x; k ← mapM f l; Some (y :: k).
Proof. done. Qed.

Lemma StronglySorted_Forall2 {A B} (R : relation A) (R' : relation B) (P : A → B → Prop)
    (l : list A) (k : list B) :
  (∀ x y x' y', P x x' → P y y' → R x y → R' x' y') →
  Forall2 P l k → StronglySorted R l → StronglySorted R' k.
Proof.
  intros HR HP. induction HP as [|x x' l k Hx HP IH]; [constructor|].
  intros [Hl Hxl]%StronglySorted_inv. constructor; [by apply IH|].
  apply Forall_forall. intros y' Hy'.
  apply (list_elem_of_lookup_1 k) in Hy' as [i Hi].
  destruct (Forall2_lookup_r _ _ _ _ _ HP Hi) as (y & Hy & Hyy').
  apply (HR x y); [done..|].
  eapply Forall_forall; [exact Hxl|]. by eapply list_elem_of_lookup_2.
Qed.

Section GetAll.
Context `{JSONCodec}.

Lemma decode_created_at (r : Row) (identity : Identity) :
  decode (project IdentityColumns r) = Some identity →
  timestamp_key (col r "created_at") = Some (CreatedAt identity).
Proof.
  unfold decode. intros Hd.
  destruct (Scan _) as [[scanned j]|] eqn:Hscan; [|done]. simpl in Hd.
  destruct (Unmarshal j) as [m|]; [|done]. injection Hd as <-.
  apply Scan_created_at in Hscan. by injection Hscan.
Qed.

Lemma scan_rows_cons (src : list Value) (rows : list (list Value)) (acc : list Identity) :
  match decode src with
  | Some identity => scan_rows (src :: rows) acc = scan_rows rows (acc ++ [identity])
  | None => ∃ err, scan_rows (src :: rows) acc = inl err ∧ Code err = ErrInternalServer
  end.
Proof.
  unfold decode. simpl.
  destruct (Scan src) as [[identity j]|]; simpl; [|by eexists].
  destruct (Unmarshal j); simpl; [done | by eexists].
Qed.

Lemma scan_rows_Some (rows : list (list Value)) (acc l : list Identity) :
  mapM decode rows = Some l → scan_rows rows acc = inr (acc ++ l).
Proof.
  revert acc l. induction rows as [|src rows IH]; intros acc l Hl.
  - injection Hl as <-. by rewrite app_nil_r.
  - pose proof (scan_rows_cons src rows acc) as Hcons.
    rewrite mapM_cons in Hl.
    destruct (decode src) as [identity|]; [|done]. simpl in Hl.
    destruct (mapM decode rows) as [l'|]; [|done]. injection Hl as <-.
    rewrite Hcons, (IH _ l') by done. by rewrite <- app_assoc.
Qed.

Lemma scan_rows_None (rows : list (list Value)) (acc : list Identity) :
  mapM decode rows = None →
  ∃ err, scan_rows rows acc = inl err ∧ Code err = ErrInternalServer.
Proof.
  revert acc. induction rows as [|src rows IH]; intros acc Hl; [done|].
  pose proof (scan_rows_cons src rows acc) as Hcons.
  rewrite mapM_cons in Hl.
  destruct (decode src) as [identity|]; [|done]. simpl in Hl.
  rewrite Hcons. apply IH. by destruct (mapM decode rows).
Qed.

Lemma mapM_decode_None (rows : list (list Value)) :
  (∃ src, src ∈ rows ∧ decode src = None) → mapM decode rows = None.
Proof.
  intros (src & Hin & Hsrc).
  destruct (mapM decode rows) as [l|] eqn:Hl; [|done].
  apply mapM_Some_1 in Hl.
  apply list_elem_of_lookup_1 in Hin as [i Hi].
  destruct (Forall2_lookup_l _ _ _ _ _ Hl Hi) as (y & _ & Hy). congruence.
Qed.

(** C7: [GetAllIdentities], when it succeeds, returns the identities read
    from all the rows of the table, each row once, in decreasing order of
    [CreatedAt]; it succeeds when every row can be read and no call fails,
    with the empty sequence when the table is empty; and when the scan or
    the deserialization of some row fails it returns an [InternalError] and
    no identity at all. *)
Theorem GetAllIdentities_ordered (env : Env) (d : Datasource) :
  QueryFails env = false →
  (∀ identities,
     (GetAllIdentities env d).1 = (identities, None) →
     ∃ rows,
       rows ≡ₚ table d
       ∧ Forall2 (λ r identity, decode (project IdentityColumns r) = Some identity)
                 rows identities
       ∧ StronglySorted (λ a b, CreatedAt b ≤ CreatedAt a) identities)
  ∧ (RowsErrFails env = false →
     (∀ r, r ∈ table d → is_Some (decode (project IdentityColumns r))) →
     ∃ identities, (GetAllIdentities env d).1 = (identities, None))
  ∧ (RowsErrFails env = false → table d = [] → (GetAllIdentities env d).1 = ([], None))
  ∧ ((∃ r, r ∈ table d ∧ decode (project IdentityColumns r) = None) →
     ∃ err, (GetAllIdentities env d).1 = ([], Some err) ∧ Code err = ErrInternalServer).
Proof.
  intros Hquery. unfold GetAllIdentities, select_all_ordered. rewrite Hquery.
  cbn [table record_call].
  set (sorted := merge_sort created_at_desc (table d)).
  split_and!.
  - intros identities Hres.
    destruct (mapM decode (project IdentityColumns <$> sorted)) as [l|] eqn:Hl.
    + rewrite (scan_rows_Some _ [] l) in Hres by done.
      destruct (RowsErrFails env); [done|]. injection Hres as <-.
      apply mapM_Some_1, Forall2_fmap_l in Hl.
      exists sorted. split_and!.
      * apply merge_sort_Permutation.
      * done.
      * eapply (StronglySorted_Forall2 created_at_desc); [|exact Hl|].
        -- intros r1 r2 i1 i2 H1%decode_created_at H2%decode_created_at.
           unfold created_at_desc. by rewrite H1, H2.
        -- apply (StronglySorted_merge_sort _).
    + destruct (scan_rows_None _ [] Hl) as (err & Herr & _).
      by rewrite Herr in Hres.
  - intros Hrows Hall.
    destruct (mapM decode (project IdentityColumns <$> sorted)) as [l|] eqn:Hl.
    + rewrite (scan_rows_Some _ [] l), Hrows by done. by eexists.
    + apply mapM_None_1, Exists_exists in Hl as (src & Hin & Hsrc).
      apply list_elem_of_fmap in Hin as (r & -> & Hr).
      apply (elem_of_Permutation_proper _ _ _ (merge_sort_Permutation _ _)) in Hr.
      destruct (Hall r Hr) as [identity Hsome]. congruence.
  - intros Hrows Hempty. subst sorted. rewrite Hempty. simpl. by rewrite Hrows.
  - intros (r & Hr & Hfail).
    destruct (scan_rows_None (project IdentityColumns <$> sorted) []) as (err & -> & Herr).
    + apply mapM_decode_None. exists (project IdentityColumns r). split; [|done].
      apply list_elem_of_fmap_2.
      by apply (elem_of_Permutation_proper _ _ _ (merge_sort_Permutation _ _)).
    + by exists err.
Qed.

End GetAll.

(** * The operations on sample data *)

Example marshal_sample : Unmarshal sample_json = Some (Some sample_meta).
Proof. vm_compute. reflexivity. Qed.

Example marshal_nil_and_empty :
  Marshal None = Some "null" ∧ Marshal (Some ∅) = Some "{}"
  ∧ Unmarshal "null" = Some None ∧ Unmarshal "{}" = Some (Some ∅)
  ∧ Unmarshal "" = None ∧ Unmarshal "[1]" = None
  ∧ Marshal (MetaData unserializable) = None.
Proof. vm_compute. done. Qed.

Example create_ada :
  CreateIdentity (quiet 100 "_u1") ada empty_store
  = ((ada_created, None),
     mkDatasource [row_of ada_created sample_json]
                  [CallExec (InsertIdentity IdentityColumns)
                            (insert_args ada_created sample_json)]).
Proof. vm_compute. reflexivity. Qed.

Example update_query_text :
  UpdateQuery_text (numbered ["first_name"; "dob"]) 3
  = NL +:+ TAB +:+ TAB +:+ "UPDATE blnk.identity" +:+
    NL +:+ TAB +:+ TAB +:+ "SET first_name = $1, dob = $2" +:+
    NL +:+ TAB +:+ TAB +:+ "WHERE identity_id = $3" +:+ NL +:+ TAB.
Proof. vm_compute. reflexivity. Qed.

(** Updating the first name alone: the row has the new first name and the
    last name it had. *)
Example update_first_name_only :
  (UpdateIdentity (quiet 300 "") rename_ada ada_store).1 = None
  ∧ (λ r, (col r "first_name", col r "last_name"))
      <$> table (UpdateIdentity (quiet 300 "") rename_ada ada_store).2
    = [(VString "C", VString "B")]
  ∧ (λ r, (col r "first_name", col r "last_name")) <$> table ada_store
    = [(VString "A", VString "B")].
Proof. vm_compute. done. Qed.

(** Identities created at the times 1, 2 and 3 come back in the order 3, 2, 1. *)
Example get_all_three :
  (CreatedAt <$> (GetAllIdentities (quiet 9 "") three_store).1.1) = [3; 2; 1]
  ∧ (GetAllIdentities (quiet 9 "") three_store).1.2 = None.
Proof. vm_compute. done. Qed.

(** After a successful delete the identifier is not found any more. *)
Example delete_then_get :
  (DeleteIdentity (quiet 400 "") "idt_u1" ada_store).1 = None
  ∧ Code <$> (GetIdentityByID (quiet 500 "") "idt_u1"
                (DeleteIdentity (quiet 400 "") "idt_u1" ada_store).2).1.2
    = Some ErrNotFound.
Proof. vm_compute. done. Qed.

(** * The claims on sample data *)


Lemma UpdateIdentity_set_clause_witness :
  marshals_to ada sample_json
  ∧ ∃ assignments wherePosition args,
      calls (UpdateIdentity (quiet 300 "") ada ada_store).2
      = calls ada_store ++ [CallExec (UpdateIdentitySet assignments wherePosition) args]
      ∧ fieldName <$> assignments
        = ["identity_type"; "first_name"; "last_name"; "email_address"; "meta_data"]
      ∧ placeholder <$> assignments = [1; 2; 3; 4; 5]%nat
      ∧ wherePosition = 6%nat.
Proof.
  assert (marshals_to ada sample_json) as Hjson by (intros _; vm_compute; reflexivity).
  split; [exact Hjson|].
  destruct (UpdateIdentity_set_clause (quiet 300 "") ada ada_store sample_json Hjson)
    as (assignments & wherePosition & args & Hcalls & Hnames & Hpos & Hwhere & _).
  { vm_compute. discriminate. }
  exists assignments, wherePosition, args.
  assert (length assignments = 5%nat) as Hlen.
  { rewrite <- (length_fmap fieldName), Hnames. reflexivity. }
  rewrite Hlen in Hpos, Hwhere. split_and!; [exact Hcalls | exact Hnames | exact Hpos | exact Hwhere].
Defined.



Lemma GetIdentityByID_rollback_witness :
  BeginTxFails (quiet 200 "") = false
  ∧ issued_by_get (quiet 200 "") "idt_u1" broken_store
    = [CallBeginTx; CallQueryRow "idt_u1"; CallRollback]
  ∧ issued_by_get (quiet 200 "") "idt_missing" ada_store
    = [CallBeginTx; CallQueryRow "idt_missing"; CallRollback].
Proof.
  split; [reflexivity|]. split.
  - eapply (proj1 (proj2 (GetIdentityByID_rollback (quiet 200 "") "idt_u1" broken_store
                            eq_refl))).
    + vm_compute. reflexivity.
    + vm_compute. reflexivity.
  - eapply (proj1 (GetIdentityByID_rollback (quiet 200 "") "idt_missing" ada_store
                     eq_refl)).
    vm_compute. reflexivity.
Defined.

(** C4 as stated fails when the commit fails: the transaction had begun,
    an error is returned, and no rollback was made. *)
Lemma GetIdentityByID_commit_failure_no_rollback :
  BeginTxFails commit_fails = false
  ∧ (GetIdentityByID commit_fails "idt_u1" ada_store).1
    = (None, Some (NewAPIError ErrInternalServer "Failed to commit transaction"
                     (Some ErrDriver)))
  ∧ issued_by_get commit_fails "idt_u1" ada_store
    = [CallBeginTx; CallQueryRow "idt_u1"; CallCommit]
  ∧ ¬ rolled_back_on_failure commit_fails "idt_u1" ada_store.
Proof.
  assert (issued_by_get commit_fails "idt_u1" ada_store
          = [CallBeginTx; CallQueryRow "idt_u1"; CallCommit]) as Hissued
    by (vm_compute; reflexivity).
  split_and!; [reflexivity | vm_compute; reflexivity | exact Hissued |].
  intros Hclaim. unfold rolled_back_on_failure in Hclaim. rewrite Hissued in Hclaim.
  assert (CallRollback ∈ [CallBeginTx; CallQueryRow "idt_u1"; CallCommit]) as Hin.
  { apply Hclaim; [reflexivity|]. vm_compute. eauto. }
  repeat (apply elem_of_cons in Hin as [Hin|Hin]; [discriminate Hin|]).
  by apply elem_of_nil in Hin.
Qed.

Lemma UpdateIdentity_empty_rejected_witness :
  Forall (λ fv, ¬ contributes fv.2) (updatable_fields only_id)
  ∧ MetaData only_id = None
  ∧ UpdateIdentity (quiet 300 "") only_id ada_store
    = (Some (NewAPIError ErrBadRequest "No fields provided for update" None), ada_store).
Proof.
  assert (Forall (λ fv, ¬ contributes fv.2) (updatable_fields only_id)) as Hnone.
  { repeat constructor; simpl; intros Hc; by apply Hc. }
  split_and!; [exact Hnone | reflexivity |].
  exact (UpdateIdentity_empty_rejected (quiet 300 "") only_id ada_store Hnone eq_refl).
Defined.

Lemma missing_id_not_found_witness :
  no_row_with "idt_1" ada_store
  ∧ (GetIdentityByID (quiet 300 "") "idt_1" ada_store).1
    = (None, Some (NewAPIError ErrNotFound (not_found_message "idt_1") (Some ErrNoRows)))
  ∧ (UpdateIdentity (quiet 300 "") empty_meta ada_store).1
    = Some (NewAPIError ErrNotFound (not_found_message "idt_1") None)
  ∧ (DeleteIdentity (quiet 300 "") "idt_1" ada_store).1
    = Some (NewAPIError ErrNotFound (not_found_message "idt_1") None).
Proof.
  assert (no_row_with "idt_1" ada_store) as Hno.
  { intros r Hr. vm_compute in Hr. apply list_elem_of_singleton in Hr as ->.
    vm_compute. discriminate. }
  split; [exact Hno|].
  destruct (missing_id_not_found (quiet 300 "") empty_meta ada_store "{}")
    as ((Hget & _) & (Hupd & _) & (Hdel & _)).
  - exact Hno.
  - repeat split.
  - intros _. vm_compute. reflexivity.
  - vm_compute. discriminate.
  - split_and!; [exact Hget | exact Hupd | exact Hdel].
Defined.

Lemma GetAllIdentities_ordered_witness :
  QueryFails (quiet 9 "") = false
  ∧ (GetAllIdentities (quiet 9 "") empty_store).1 = ([], None)
  ∧ ∃ err, (GetAllIdentities (quiet 9 "") broken_store).1 = ([], Some err)
           ∧ Code err = ErrInternalServer.
Proof.
  split; [reflexivity|]. split.
  - exact (proj1 (proj2 (proj2 (GetAllIdentities_ordered (quiet 9 "") empty_store eq_refl)))
             eq_refl eq_refl).
  - apply (proj2 (proj2 (proj2 (GetAllIdentities_ordered (quiet 9 "") broken_store eq_refl)))).
    exists (row_of ada_created "{"). split.
    + apply list_elem_of_singleton. reflexivity.
    + vm_compute. reflexivity.
Defined.


Lemma CreateIdentity_marshal_failure_witness :
  Marshal (MetaData unserializable) = None
  ∧ CreateIdentity (quiet 100 "_u1") unserializable ada_store
    = ((unserializable,
        Some (NewAPIError ErrInternalServer "Failed to marshal metadata" (Some ErrJSON))),
       ada_store).
Proof.
  assert (Marshal (MetaData unserializable) = None) as Hfail by (vm_compute; reflexivity).
  split; [exact Hfail|].
  exact (CreateIdentity_marshal_failure (quiet 100 "_u1") unserializable ada_store Hfail).
Defined.

(** * Further properties of the operations *)

(** ** Rows and identifiers *)

Lemma matches_id_true (id : string) (r : Row) :
  matches_id (VString id) r = true ↔ col r "identity_id" = VString id.
Proof.
  split; [|apply matches_id_refl].
  unfold matches_id, sql_eq.
  destruct (col r "identity_id"); try done; by intros ?%bool_decide_eq_true.
Qed.

Lemma matches_id_false (id : string) (r : Row) :
  matches_id (VString id) r = false ↔ col r "identity_id" ≠ VString id.
Proof.
  rewrite <- not_true_iff_false, matches_id_true. done.
Qed.

Lemma filter_matches_nil (id : string) (t : list Row) :
  filter (λ r, matches_id (VString id) r = true) t = []
  ↔ ∀ r, r ∈ t → col r "identity_id" ≠ VString id.
Proof.
  split; [|apply no_row_matches_filter].
  intros Hnil r Hr Hid.
  apply (filter_nil_not_elem_of _ _ r Hnil); [by apply matches_id_true | done].
Qed.

Lemma existsb_matches (id : string) (t : list Row) :
  existsb (matches_id (VString id)) t = false
  ↔ ∀ r, r ∈ t → col r "identity_id" ≠ VString id.
Proof.
  split.
  - intros Hno%no_match_filter. by apply filter_matches_nil.
  - intros Hno. apply not_true_iff_false.
    intros (r & Hr%list_elem_of_In & Hm%matches_id_true)%existsb_exists.
    by apply (Hno r).
Qed.

Lemma update_row_identity_id (id : Value) (identity : Identity) (j : bytes) (r : Row) :
  col (update_row id (qualifying_fields identity j) r) "identity_id"
  = col r "identity_id".
Proof.
  unfold update_row, col. destruct (matches_id id r); [|done].
  rewrite assign_other; [done|].
  rewrite qualifying_fields_names. apply identity_id_never_set.
Qed.

Lemma primary_key_update (id : Value) (identity : Identity) (j : bytes) (t : list Row) :
  primary_key t → primary_key (update_row id (qualifying_fields identity j) <$> t).
Proof.
  intros [Hnn Hnd]. split.
  - apply Forall_fmap. eapply Forall_impl; [exact Hnn|].
    intros r Hr. simpl. by rewrite update_row_identity_id.
  - rewrite <- list_fmap_compose.
    erewrite list_fmap_ext; [exact Hnd|].
    intros i r _. simpl. apply update_row_identity_id.
Qed.

Lemma primary_key_filter (P : Row → Prop) `{!∀ r, Decision (P r)} (t : list Row) :
  primary_key t → primary_key (filter P t).
Proof.
  intros [Hnn Hnd]. split.
  - apply Forall_forall. intros r [_ Hr]%list_elem_of_filter.
    by apply (proj1 (Forall_forall _ _) Hnn).
  - eapply sublist_NoDup; [exact Hnd|].
    apply fmap_sublist, sublist_filter.
Qed.

Lemma primary_key_insert (identity : Identity) (j : bytes) (t : list Row) :
  existsb (matches_id (VString (IdentityID identity))) t = false →
  primary_key t → primary_key (t ++ [row_of identity j]).
Proof.
  intros Hnew [Hnn Hnd].
  pose proof (proj1 (existsb_matches _ _) Hnew) as Hfresh. split.
  - apply Forall_app. split; [done|].
    apply Forall_singleton. by rewrite row_of_identity_id.
  - rewrite fmap_app. apply NoDup_app. split_and!; [done| |apply NoDup_singleton].
    intros v (r & -> & Hr)%list_elem_of_fmap Hv.
    apply list_elem_of_singleton in Hv. rewrite row_of_identity_id in Hv.
    by apply (Hfresh r).
Qed.

(** ** [DeleteIdentity] *)

Lemma DeleteIdentity_eq (env : Env) (id : string) (d : Datasource) :
  DeleteIdentity env id d =
  let d1 := record_call (CallExec DeleteIdentityByID [VString id]) d in
  if ExecFails env then
    (Some (NewAPIError ErrInternalServer "Failed to delete identity" (Some ErrDriver)), d1)
  else
    let d2 := mkDatasource (filter (λ r, matches_id (VString id) r = false) (table d))
                           (calls d1) in
    if RowsAffectedFails env then
      (Some (NewAPIError ErrInternalServer "Failed to get rows affected" (Some ErrDriver)),
       d2)
    else if bool_decide (filter (λ r, matches_id (VString id) r = true) (table d) = []) then
      (Some (NewAPIError ErrNotFound (not_found_message id) None), d2)
    else (None, d2).
Proof.
  unfold DeleteIdentity, Exec, RowsAffected, record_call. cbn [table calls].
  destruct (ExecFails env); [done|]. simpl.
  destruct (RowsAffectedFails env); [done|].
  destruct (filter _ (table d)); done.
Qed.

(** X1: [DeleteIdentity] returns no error exactly when the statement and
    the reading of its row count do not fail and some row has the
    identifier; the table is then the former one without the rows of this
    identifier, the other rows kept in their order, and the one statement
    run is the [DELETE] with the identifier as its argument. *)
Theorem DeleteIdentity_removes (env : Env) (id : string) (d : Datasource) :
  ((DeleteIdentity env id d).1 = None
   ↔ ExecFails env = false ∧ RowsAffectedFails env = false
     ∧ ∃ r, r ∈ table d ∧ col r "identity_id" = VString id)
  ∧ ((DeleteIdentity env id d).1 = None →
     table (DeleteIdentity env id d).2
     = filter (λ r, col r "identity_id" ≠ VString id) (table d)
     ∧ no_row_with id (DeleteIdentity env id d).2)
  ∧ calls (DeleteIdentity env id d).2
    = calls d ++ [CallExec DeleteIdentityByID [VString id]].
Proof.
  rewrite DeleteIdentity_eq. cbv zeta.
  assert (filter (λ r, matches_id (VString id) r = false) (table d)
          = filter (λ r, col r "identity_id" ≠ VString id) (table d)) as Hfilter.
  { apply list_filter_iff. intros r. apply matches_id_false. }
  split_and!.
  - destruct (ExecFails env); [by split; [|intros (? & _)]|].
    destruct (RowsAffectedFails env); [by split; [|intros (_ & ? & _)]|].
    case_bool_decide as Hnone; simpl.
    + split; [done|]. intros (_ & _ & r & Hr & Hid). exfalso.
      by apply (proj1 (filter_matches_nil id _) Hnone r).
    + split; [|done]. intros _. split_and!; [done..|].
      destruct (filter (λ r, matches_id (VString id) r = true) (table d))
        as [|r l] eqn:Hl; [done|].
      assert (r ∈ filter (λ r, matches_id (VString id) r = true) (table d)) as Hr
        by (rewrite Hl; apply list_elem_of_here).
      apply list_elem_of_filter in Hr as [Hm%matches_id_true Hr]. eauto.
  - destruct (ExecFails env); [done|].
    destruct (RowsAffectedFails env); [done|].
    case_bool_decide; [done|]. simpl. intros _. split; [done|].
    intros r. simpl. rewrite Hfilter. by intros [? _]%list_elem_of_filter.
  - destruct (ExecFails env); [done|].
    destruct (RowsAffectedFails env); [done|]. by case_bool_decide.
Qed.

Section Compose.
Context `{JSONCodec}.

(** X2: after a [DeleteIdentity] that returned no error, a
    [GetIdentityByID] of the same identifier whose transaction begins and
    whose query does not fail returns [NotFound], and rolls back. *)
Theorem delete_then_get_not_found (env env' : Env) (id : string) (d d' : Datasource) :
  DeleteIdentity env id d = (None, d') →
  BeginTxFails env' = false → QueryFails env' = false →
  GetIdentityByID env' id d'
  = ((None, Some (NewAPIError ErrNotFound (not_found_message id) (Some ErrNoRows))),
     mkDatasource (table d') (calls d' ++ [CallBeginTx; CallQueryRow id; CallRollback])).
Proof.
  intros Hdel Hbegin Hquery. apply GetIdentityByID_not_found; [done..|].
  rewrite DeleteIdentity_eq in Hdel. cbv zeta in Hdel.
  destruct (ExecFails env); [done|].
  destruct (RowsAffectedFails env); [done|].
  case_bool_decide; [done|]. injection Hdel as <-.
  intros r. simpl. intros [Hm _]%list_elem_of_filter. by apply matches_id_false.
Qed.

(** X3: the constraint of the primary key is kept by the five operations,
    whatever the environment and their arguments: when every row of the
    table has an identifier and no two rows share one, the same holds of
    the table each operation leaves. *)
Theorem primary_key_preserved (env : Env) (identity : Identity) (id : string)
    (d : Datasource) :
  primary_key (table d) →
  primary_key (table (CreateIdentity env identity d).2)
  ∧ primary_key (table (GetIdentityByID env id d).2)
  ∧ primary_key (table (GetAllIdentities env d).2)
  ∧ primary_key (table (UpdateIdentity env identity d).2)
  ∧ primary_key (table (DeleteIdentity env id d).2).
Proof.
  intros Hpk. split_and!.
  - unfold CreateIdentity.
    destruct (Marshal (MetaData identity)) as [j|]; [|done].
    unfold Exec, record_call. cbn [table calls].
    destruct (ExecFails env); [done|]. rewrite run_insert.
    destruct (existsb _ (table d)) eqn:Hnew; [done|].
    by apply primary_key_insert.
  - by rewrite GetIdentityByID_table.
  - unfold GetAllIdentities. destruct (QueryFails env); [done|].
    destruct (scan_rows _ _); [done|]. by destruct (RowsErrFails env).
  - destruct (UpdateIdentity_table env identity d) as [->|[j ->]]; [done|].
    by apply primary_key_update.
  - rewrite DeleteIdentity_eq. cbv zeta.
    destruct (ExecFails env); [done|].
    assert (primary_key (filter (λ r, matches_id (VString id) r = false) (table d)))
      by (by apply primary_key_filter).
    destruct (RowsAffectedFails env); [done|]. by case_bool_decide.
Qed.

(** X4: [GetIdentityByID] fails in two ways only.  Its result is an
    identity and no error, or no identity and an error whose category is
    [NotFound] or [InternalError]; the category is [NotFound] exactly when
    the transaction begins, the query does not fail and no row has the
    identifier.  No statement is executed and the table is left as it
    was. *)
Theorem GetIdentityByID_outcomes (env : Env) (id : string) (d : Datasource) :
  ((∃ identity, (GetIdentityByID env id d).1 = (Some identity, None))
   ∨ (∃ err, (GetIdentityByID env id d).1 = (None, Some err)
             ∧ (Code err = ErrNotFound ∨ Code err = ErrInternalServer)))
  ∧ ((∃ err, (GetIdentityByID env id d).1.2 = Some err ∧ Code err = ErrNotFound)
     ↔ BeginTxFails env = false ∧ QueryFails env = false ∧ no_row_with id d)
  ∧ table (GetIdentityByID env id d).2 = table d
  ∧ Forall (λ c, ¬ is_exec c) (issued d (GetIdentityByID env id d).2).
Proof.
  split_and!; [| |apply GetIdentityByID_table|].
  - unfold GetIdentityByID.
    destruct (BeginTxFails env); [right; eexists; split; [done | by right]|].
    rewrite !QueryRow_Scan_record.
    destruct (QueryRow_Scan env id d) as [err|[identity j]].
    { right. destruct err; simpl; eexists; (split; [reflexivity|]); simpl; auto. }
    destruct (Unmarshal j); [|right; eexists; split; [done | by right]].
    destruct (CommitFails env); [right; eexists; split; [done | by right]|].
    left. by eexists.
  - split.
    + intros (err & Herr & Hcode). revert Herr Hcode.
      unfold GetIdentityByID. destruct (BeginTxFails env); [by intros [= <-]|].
      rewrite !QueryRow_Scan_record. unfold QueryRow_Scan.
      destruct (QueryFails env); [by intros [= <-]|].
      destruct (select_by_id _ _) as [src|] eqn:Hsel.
      * destruct (Scan src) as [[identity j]|]; [|by intros [= <-]].
        destruct (Unmarshal j); [|by intros [= <-]].
        destruct (CommitFails env); [by intros [= <-] | done].
      * intros _ _. split_and!; [done..|].
        unfold no_row_with. apply (proj1 (filter_matches_nil id (table d))).
        unfold select_by_id in Hsel.
        by destruct (filter _ (table d)).
    + intros (Hbegin & Hquery & Hno).
      rewrite GetIdentityByID_not_found by done. eauto.
  - assert (∀ l, Forall (λ c, ¬ is_exec c) l →
                 Forall (λ c, ¬ is_exec c) (drop (length (calls d)) (calls d ++ l)))
      as Hdrop by (intros l Hl; by rewrite drop_app_length).
    assert (∀ c, ¬ is_exec c → Forall (λ c, ¬ is_exec c)
                                  [CallBeginTx; CallQueryRow id; c]) as Hthree.
    { intros c Hc. apply Forall_cons_2; [by intros []|].
      apply Forall_cons_2; [by intros []|].
      apply Forall_cons_2; [done|]. apply Forall_nil_2. }
    unfold issued, GetIdentityByID, record_call. cbn [table calls].
    destruct (BeginTxFails env).
    { simpl. apply Hdrop. apply Forall_cons_2; [by intros [] | apply Forall_nil_2]. }
    destruct (QueryRow_Scan _ _ _) as [[]|[identity j]];
      try (simpl; rewrite <- !app_assoc; apply Hdrop, Hthree; by intros []).
    destruct (Unmarshal j);
      [destruct (CommitFails env)|];
      simpl; rewrite <- !app_assoc; apply Hdrop, Hthree; by intros [].
Qed.

(** X5: whenever [GetAllIdentities] returns an error it returns no
    identity with it and the category of the error is [InternalError];
    it executes no statement and leaves the table as it was. *)
Theorem GetAllIdentities_outcomes (env : Env) (d : Datasource) :
  (∀ err, (GetAllIdentities env d).1.2 = Some err →
          (GetAllIdentities env d).1.1 = [] ∧ Code err = ErrInternalServer)
  ∧ table (GetAllIdentities env d).2 = table d
  ∧ issued d (GetAllIdentities env d).2 = [CallQuery].
Proof.
  unfold issued, GetAllIdentities, record_call. cbn [table calls].
  assert (drop (length (calls d)) (calls d ++ [CallQuery]) = [CallQuery]) as Hdrop
    by (by rewrite drop_app_length).
  destruct (QueryFails env); [by split_and!; [intros err [= <-]|..]|].
  destruct (mapM decode (project IdentityColumns <$> merge_sort created_at_desc (table d)))
    as [l|] eqn:Hl.
  - unfold select_all_ordered. rewrite (scan_rows_Some _ [] l) by done.
    destruct (RowsErrFails env); by split_and!; [intros err [= <-]|..].
  - unfold select_all_ordered.
    destruct (scan_rows_None _ [] Hl) as (e & -> & He).
    by split_and!; [intros err [= <-]|..].
Qed.

End Compose.

(** ** What the writes leave in the table *)

Lemma NoDup_qualifying_columns (identity : Identity) :
  NoDup (qualifying_columns identity).
Proof.
  unfold qualifying_columns, qualifying_fields. rewrite fmap_app.
  apply NoDup_app. split_and!.
  - eapply sublist_NoDup; [|apply fmap_sublist, sublist_filter].
    simpl. apply (bool_decide_unpack _). vm_compute. exact I.
  - intros c (fv & -> & [_ Hfv]%list_elem_of_filter)%list_elem_of_fmap Hmeta.
    unfold metadata_field in Hmeta.
    destruct (MetaData identity); [|by apply elem_of_nil in Hmeta].
    apply list_elem_of_singleton in Hmeta. simpl in Hmeta.
    apply (list_elem_of_fmap_2 fst) in Hfv. rewrite Hmeta in Hfv.
    simpl in Hfv. not_in_list Hfv.
  - unfold metadata_field. destruct (MetaData identity); simpl.
    + apply NoDup_singleton.
    + apply NoDup_nil_2.
Qed.

Lemma assign_in (q : list (string * Value)) (r : Row) (c : string) (v : Value) :
  NoDup q.*1 → (c, v) ∈ q → foldl assign r q !! c = Some v.
Proof.
  revert r. induction q as [|[c' v'] q IH]; intros r Hnd Hin.
  - by apply elem_of_nil in Hin.
  - simpl in *. apply NoDup_cons in Hnd as [Hc' Hnd].
    apply elem_of_cons in Hin as [[= <- <-]|Hin]; [|by apply IH].
    rewrite assign_other by done. unfold assign. simpl. apply lookup_insert_eq.
Qed.

Lemma update_row_other (id : string) (q : list (string * Value)) (r : Row) :
  col r "identity_id" ≠ VString id → update_row (VString id) q r = r.
Proof.
  intros Hid%matches_id_false. unfold update_row. by rewrite Hid.
Qed.

Lemma update_row_written (id : string) (identity : Identity) (j : bytes) (r : Row)
    (c : string) (v : Value) :
  col r "identity_id" = VString id →
  (c, v) ∈ qualifying_fields identity j →
  update_row (VString id) (qualifying_fields identity j) r !! c = Some v.
Proof.
  intros Hid%matches_id_true Hin. unfold update_row. rewrite Hid.
  apply assign_in; [|done].
  rewrite qualifying_fields_names. apply NoDup_qualifying_columns.
Qed.

Section Writes.
Context `{JSONCodec}.

Lemma runUpdate_success_matched env identity (q : list (string * Value)) d d' :
  runUpdate env identity (vars_of q) d = (None, d') →
  ∃ r, r ∈ table d ∧ col r "identity_id" = VString (IdentityID identity).
Proof.
  unfold runUpdate. simpl.
  case_bool_decide; [done|].
  rewrite Exec_update. cbv zeta.
  destruct (ExecFails env); [done|].
  unfold RowsAffected. destruct (RowsAffectedFails env); [done|].
  case_bool_decide as Hzero; [done|]. intros _.
  destruct (filter (λ r, matches_id (VString (IdentityID identity)) r = true) (table d))
    as [|r l] eqn:Hl; [done|].
  assert (r ∈ filter (λ r, matches_id (VString (IdentityID identity)) r = true) (table d))
    as Hr by (rewrite Hl; apply list_elem_of_here).
  apply list_elem_of_filter in Hr as [Hm%matches_id_true Hr]. eauto.
Qed.

(** X6: after an [UpdateIdentity] that returned no error, some row had
    the identifier; every row with the identifier holds, in each qualifying
    column, the value of the caller (for [meta_data] the serialized
    mapping), and every other row is what it was. *)
Theorem UpdateIdentity_writes (env : Env) (identity : Identity) (d d' : Datasource)
    (metaDataJSON : bytes) :
  UpdateIdentity env identity d = (None, d') →
  marshals_to identity metaDataJSON →
  (∃ r, r ∈ table d ∧ col r "identity_id" = VString (IdentityID identity))
  ∧ length (table d') = length (table d)
  ∧ ∀ k r r',
      table d !! k = Some r → table d' !! k = Some r' →
      (col r "identity_id" ≠ VString (IdentityID identity) → r' = r)
      ∧ (col r "identity_id" = VString (IdentityID identity) →
         ∀ c v, (c, v) ∈ qualifying_fields identity metaDataJSON → r' !! c = Some v).
Proof.
  intros Hupd Hjson.
  rewrite (UpdateIdentity_run _ _ _ metaDataJSON) in Hupd by done.
  pose proof (runUpdate_success_matched _ _ _ _ _ Hupd) as Hmatched.
  apply runUpdate_success in Hupd.
  split_and!; [done | by rewrite Hupd, length_fmap |].
  intros k r r' Hk Hk'. rewrite Hupd, list_lookup_fmap, Hk in Hk'.
  injection Hk' as <-. split.
  - apply update_row_other.
  - intros Hid c v Hin. by apply update_row_written.
Qed.

Lemma runUpdate_not_bad_request env identity (q : list (string * Value)) d err :
  q ≠ [] → (runUpdate env identity (vars_of q) d).1 = Some err →
  Code err ≠ ErrBadRequest.
Proof.
  intros Hq. unfold runUpdate. simpl.
  rewrite length_numbered, length_fmap.
  rewrite bool_decide_eq_false_2 by (by destruct q).
  rewrite Exec_update. cbv zeta.
  destruct (ExecFails env); [by intros [= <-]|].
  unfold RowsAffected. destruct (RowsAffectedFails env); [by intros [= <-]|].
  case_bool_decide; [by intros [= <-] | done].
Qed.

(** X7: [UpdateIdentity] returns a [BadRequest] error exactly when no
    column qualifies, that is when every string field is empty, the date of
    birth is zero and the metadata is nil; an identity whose metadata cannot
    be serialized is not a bad request. *)
Theorem UpdateIdentity_bad_request_iff (env : Env) (identity : Identity) (d : Datasource) :
  (∃ err, (UpdateIdentity env identity d).1 = Some err ∧ Code err = ErrBadRequest)
  ↔ qualifying_columns identity = [].
Proof.
  rewrite UpdateIdentity_eq. split.
  - intros (err & Herr & Hcode).
    destruct (MetaData identity) as [m|] eqn:Hm.
    + destruct (Marshal (Some m)) as [j|]; [|by injection Herr as <-].
      destruct (decide (qualifying_fields identity j = [])) as [Hq|Hq].
      * by rewrite <- (qualifying_fields_names identity j), Hq.
      * by destruct (runUpdate_not_bad_request _ _ _ _ _ Hq Herr).
    + destruct (decide (qualifying_fields identity "" = [])) as [Hq|Hq].
      * by rewrite <- (qualifying_fields_names identity ""), Hq.
      * by destruct (runUpdate_not_bad_request _ _ _ _ _ Hq Herr).
  - intros Hnone.
    assert (MetaData identity = None) as ->.
    { destruct (MetaData identity) eqn:Hm; [|done].
      assert ("meta_data" ∈ qualifying_columns identity) as Hin
        by (apply meta_data_qualifies; by rewrite Hm).
      rewrite Hnone in Hin. by apply elem_of_nil in Hin. }
    assert (qualifying_fields identity "" = []) as ->.
    { apply (fmap_nil_inv fst). by rewrite qualifying_fields_names. }
    rewrite runUpdate_nil. by eexists.
Qed.

(** X8: a write that returns an error has left the table as it was, as
    long as the error is not that of reading the number of affected rows:
    so for every failing [CreateIdentity], and for every failing
    [UpdateIdentity] and [DeleteIdentity] when [RowsAffected] does not
    fail. *)
Theorem failed_write_keeps_table (env : Env) (identity : Identity) (id : string)
    (d : Datasource) :
  (is_Some (CreateIdentity env identity d).1.2 →
   table (CreateIdentity env identity d).2 = table d)
  ∧ (RowsAffectedFails env = false →
     is_Some (UpdateIdentity env identity d).1 →
     table (UpdateIdentity env identity d).2 = table d)
  ∧ (RowsAffectedFails env = false →
     is_Some (DeleteIdentity env id d).1 →
     table (DeleteIdentity env id d).2 = table d).
Proof.
  split_and!.
  - unfold CreateIdentity.
    destruct (Marshal (MetaData identity)) as [j|]; [|done].
    unfold Exec, record_call. cbn [table calls].
    destruct (ExecFails env); [done|]. rewrite run_insert.
    destruct (existsb _ (table d)); [done|]. by intros [? [=]].
  - intros Hrows. rewrite UpdateIdentity_eq.
    assert (∀ q, is_Some (runUpdate env identity (vars_of q) d).1 →
                 table (runUpdate env identity (vars_of q) d).2 = table d) as Hrun.
    { intros q. unfold runUpdate. simpl.
      case_bool_decide; [done|].
      rewrite Exec_update. cbv zeta.
      destruct (ExecFails env); [done|].
      unfold RowsAffected. rewrite Hrows.
      case_bool_decide as Hzero; [|by intros [? [=]]].
      intros _. simpl. apply no_match_update.
      by destruct (filter _ (table d)). }
    destruct (MetaData identity); [destruct (Marshal _); [|done]|]; apply Hrun.
  - intros Hrows. rewrite DeleteIdentity_eq. cbv zeta.
    destruct (ExecFails env); [done|]. rewrite Hrows.
    case_bool_decide as Hnone; [|by intros [? [=]]].
    intros _. simpl. by apply no_match_delete.
Qed.

(** X9: when the statement runs and the reading of the number of affected
    rows then fails, [UpdateIdentity] and [DeleteIdentity] return an
    [InternalError] although the statement has taken effect: the rows with
    the identifier are updated, respectively deleted. *)
Theorem rows_affected_failure_after_effect (env : Env) (identity : Identity)
    (id : string) (d : Datasource) (metaDataJSON : bytes) :
  ExecFails env = false → RowsAffectedFails env = true →
  (marshals_to identity metaDataJSON →
   qualifying_fields identity metaDataJSON ≠ [] →
   (UpdateIdentity env identity d).1
   = Some (NewAPIError ErrInternalServer "Failed to get rows affected" (Some ErrDriver))
   ∧ table (UpdateIdentity env identity d).2
     = update_row (VString (IdentityID identity))
         (qualifying_fields identity metaDataJSON) <$> table d)
  ∧ ((DeleteIdentity env id d).1
     = Some (NewAPIError ErrInternalServer "Failed to get rows affected" (Some ErrDriver))
     ∧ table (DeleteIdentity env id d).2
       = filter (λ r, col r "identity_id" ≠ VString id) (table d)).
Proof.
  intros Hexec Hrows. split.
  - intros Hjson Hq.
    rewrite (UpdateIdentity_run _ _ _ metaDataJSON) by done.
    unfold runUpdate. simpl. rewrite length_numbered, length_fmap.
    rewrite bool_decide_eq_false_2 by (by destruct (qualifying_fields _ _)).
    rewrite Exec_update. cbv zeta. rewrite Hexec.
    unfold RowsAffected. by rewrite Hrows.
  - rewrite DeleteIdentity_eq. cbv zeta. rewrite Hexec, Hrows. simpl.
    split; [done|]. apply list_filter_iff. intros r. apply matches_id_false.
Qed.

(** X10: once the metadata is serialized, [CreateIdentity] succeeds
    exactly when the insert is not made to fail and no row has the
    generated identifier.  It then appends one row, built from the fields
    of the identity returned, after the rows of the table; otherwise it
    returns an [InternalError] with the identity carrying the generated
    identifier and creation time, the table being what it was.  In both
    cases the one statement run is the [INSERT]. *)
Theorem CreateIdentity_outcomes (env : Env) (identity : Identity) (d : Datasource)
    (metaDataJSON : bytes) :
  Marshal (MetaData identity) = Some metaDataJSON →
  let created := set_CreatedAt (Now env) (set_IdentityID ("idt" +:+ NewUUID env) identity) in
  let call := CallExec (InsertIdentity IdentityColumns) (insert_args created metaDataJSON) in
  (ExecFails env = false ∧ no_row_with (IdentityID created) d →
   CreateIdentity env identity d
   = ((created, None),
      mkDatasource (table d ++ [row_of created metaDataJSON]) (calls d ++ [call])))
  ∧ (ExecFails env = true
     ∨ (∃ r, r ∈ table d ∧ col r "identity_id" = VString (IdentityID created)) →
     CreateIdentity env identity d
     = ((created,
         Some (NewAPIError ErrInternalServer "Failed to create identity" (Some ErrDriver))),
        mkDatasource (table d) (calls d ++ [call]))).
Proof.
  intros Hjson created call.
  unfold CreateIdentity, GenerateUUIDWithSuffix. rewrite Hjson.
  fold created. unfold Exec, record_call. cbn [table calls]. rewrite run_insert.
  split.
  - intros [-> Hno]. by rewrite (proj2 (existsb_matches _ _) Hno).
  - intros [->|(r & Hr & Hid)]; [done|].
    destruct (ExecFails env); [done|].
    destruct (existsb _ (table d)) eqn:Hnew; [done|].
    by destruct (proj1 (existsb_matches _ _) Hnew r Hr).
Qed.

End Writes.

(** ** Reading back what was written *)

Section ReadBack.
Context `{JSONCodec}.

Lemma GetAllIdentities_success (env : Env) (d : Datasource) (identities : list Identity) :
  (GetAllIdentities env d).1 = (identities, None) →
  mapM decode (project IdentityColumns <$> merge_sort created_at_desc (table d))
  = Some identities.
Proof.
  unfold GetAllIdentities, select_all_ordered. cbn [table record_call].
  destruct (QueryFails env); [done|].
  destruct (mapM decode _) as [l|] eqn:Hl.
  - rewrite (scan_rows_Some _ [] l) by done.
    destruct (RowsErrFails env); [done|]. by intros [= <-].
  - destruct (scan_rows_None _ [] Hl) as (err & -> & _). done.
Qed.

Lemma decode_row_of (identity : Identity) (metaDataJSON : bytes) :
  Unmarshal metaDataJSON = Some (MetaData identity) →
  decode (project IdentityColumns (row_of identity metaDataJSON)) = Some identity.
Proof.
  intros Hjson. rewrite project_row_of. unfold decode.
  rewrite Scan_insert_args. simpl. rewrite Hjson. simpl. by destruct identity.
Qed.

(** X11: after a successful [CreateIdentity], a [GetAllIdentities] that
    succeeds returns as many identities as there are rows, one more than
    before the creation, and the identity created is among them when
    [Unmarshal] gives back the mapping that was serialized. *)
Theorem create_then_get_all (env env' : Env) (identity created : Identity)
    (d d' : Datasource) (identities : list Identity) :
  CreateIdentity env identity d = ((created, None), d') →
  (GetAllIdentities env' d').1 = (identities, None) →
  length identities = S (length (table d))
  ∧ ((∀ metaDataJSON, Marshal (MetaData created) = Some metaDataJSON →
                      Unmarshal metaDataJSON = Some (MetaData created)) →
     created ∈ identities).
Proof.
  intros (j & Hj & Hcreated & _ & Htable & _)%CreateIdentity_success
         Hall%GetAllIdentities_success.
  apply mapM_Some_1, Forall2_fmap_l in Hall.
  pose proof (merge_sort_Permutation created_at_desc (table d')) as Hperm.
  split.
  - rewrite <- (Forall2_length _ _ _ Hall), Hperm, Htable, length_app. simpl. lia.
  - intros Hcodec.
    assert (row_of created j ∈ merge_sort created_at_desc (table d')) as Hin.
    { rewrite Hperm, Htable. apply elem_of_app. right. by apply list_elem_of_singleton. }
    apply list_elem_of_lookup_1 in Hin as [k Hk].
    destruct (Forall2_lookup_l _ _ _ _ _ Hall Hk) as (identity' & Hk' & Hdec).
    unfold compose in Hdec. cbv beta in Hdec.
    rewrite decode_row_of in Hdec.
    + injection Hdec as <-. by eapply list_elem_of_lookup_2.
    + apply Hcodec. rewrite Hcreated. simpl. done.
Qed.

End ReadBack.

(** ** An update read back *)

Lemma unique_field (l : list (string * Value)) (c : string) (v v' : Value) :
  NoDup l.*1 → (c, v) ∈ l → (c, v') ∈ l → v = v'.
Proof.
  induction l as [|[c0 v0] l IH]; intros Hnd Hv Hv'.
  - by apply elem_of_nil in Hv.
  - simpl in Hnd. apply NoDup_cons in Hnd as [Hc0 Hnd].
    apply elem_of_cons in Hv as [Hv|Hv]; apply elem_of_cons in Hv' as [Hv'|Hv'].
    + congruence.
    + injection Hv as -> _. destruct Hc0. by apply (list_elem_of_fmap_2 fst) in Hv'.
    + injection Hv' as -> _. destruct Hc0. by apply (list_elem_of_fmap_2 fst) in Hv.
    + by apply IH.
Qed.

Lemma NoDup_updatable_fields (identity : Identity) :
  NoDup (updatable_fields identity).*1.
Proof. simpl. apply (bool_decide_unpack _). vm_compute. exact I. Qed.

(** A column of an updatable field after the assignments of the
    qualifying fields. *)
Lemma col_updated (identity : Identity) (j : bytes) (r : Row) (c : string) (v : Value) :
  (c, v) ∈ updatable_fields identity →
  col (foldl assign r (qualifying_fields identity j)) c = patch_value v (col r c).
Proof.
  intros Hin. unfold patch_value, col. case_decide as Hv.
  - rewrite (assign_in _ _ c v); [done| |].
    + rewrite qualifying_fields_names. apply NoDup_qualifying_columns.
    + unfold qualifying_fields. apply elem_of_app. left.
      by apply list_elem_of_filter.
  - rewrite assign_other; [done|].
    rewrite qualifying_fields_names.
    intros Hc. unfold qualifying_columns in Hc.
    apply list_elem_of_fmap in Hc as ([c' v'] & Heq & Hq). simpl in Heq. subst c'.
    pose proof Hin as Hfst%(list_elem_of_fmap_2 fst). simpl in Hfst.
    unfold qualifying_fields in Hq.
    apply elem_of_app in Hq as [[Hv' Hq]%list_elem_of_filter|Hq].
    + by rewrite (unique_field _ c v v' (NoDup_updatable_fields identity) Hin Hq) in Hv.
    + unfold metadata_field in Hq.
      destruct (MetaData identity); [|by apply elem_of_nil in Hq].
      apply list_elem_of_singleton in Hq. injection Hq as -> _.
      clear -Hfst. not_in_list Hfst.
Qed.

Lemma col_updated_meta_data (identity : Identity) (j : bytes) (r : Row) :
  col (foldl assign r (qualifying_fields identity j)) "meta_data"
  = match MetaData identity with
    | Some _ => VBytes j
    | None => col r "meta_data"
    end.
Proof.
  unfold col. destruct (MetaData identity) eqn:Hm.
  - unfold qualifying_fields, metadata_field. rewrite Hm, assign_last. reflexivity.
  - rewrite assign_other; [done|].
    rewrite qualifying_fields_names, meta_data_qualifies.
    intros Hne. by apply Hne.
Qed.

Lemma col_updated_identity_id (identity : Identity) (j : bytes) (r : Row) :
  col (foldl assign r (qualifying_fields identity j)) "identity_id" = col r "identity_id".
Proof.
  unfold col. rewrite assign_other; [done|].
  rewrite qualifying_fields_names. apply identity_id_never_set.
Qed.

Lemma col_updated_created_at (identity : Identity) (j : bytes) (r : Row) :
  col (foldl assign r (qualifying_fields identity j)) "created_at" = col r "created_at".
Proof.
  unfold col. rewrite assign_other; [done|].
  rewrite qualifying_fields_names. apply created_at_never_set.
Qed.

Lemma scan_string_patch (s stored : string) (c : Value) :
  scan_string c = Some stored →
  scan_string (patch_value (VString s) c) = Some (patch_string s stored).
Proof.
  intros Hc. unfold patch_value, patch_string. simpl.
  repeat case_decide; done.
Qed.

Lemma scan_time_patch (t stored : Time) (c : Value) :
  scan_time c = Some stored →
  scan_time (patch_value (VTime t) c) = Some (patch_time t stored).
Proof.
  intros Hc. unfold patch_value, patch_time, IsZero. simpl.
  case_decide; case_bool_decide; done.
Qed.
